(** * FPL chips optimizer: the analysis block, its patch script and the
      copilot test harnesses

    The repository ships three Python files:
    - [fix_analysis_block.py], a patch script that rewrites three passages of
      [server/services/analysisEngine.ts]; the passages themselves (TypeScript)
      are quoted in the script and are the only part of the engine present;
    - [scripts/test_ai_copilot_fixes.py], a harness that judges chat answers;
    - [scripts/run_ai_copilot_test.py], a harness that sends 100 questions.

    Conventions of the embedding:
    - a Python [str] is the list of its code points ([str := list N]);
    - a JavaScript number is an exact rational ([Q]) wherever the rounding
      of IEEE doubles plays no part; the module [Doubles] has the sell
      prices and their sum as the doubles they are.  [Math.max] of no
      argument is [-Infinity], so numbers that flow out of [Math.max] live
      in [number];
    - a JavaScript value that may be [undefined] is an [option];
    - the file the patch script rewrites is its text where only the text
      plays a part ([PatchScript]) and its bytes where the decoding and the
      line ends do ([PatchScriptIO]);
    - a decoded response body is a string-keyed record where only its
      strings play a part ([AICopilotTester]) and a JSON value where its
      type does ([ComprehensiveTest]). *)

From Stdlib Require Import String Ascii DecimalString DecimalPos DecimalZ.
From Stdlib Require Import List ZArith NArith QArith Qminmax Lia Lqa Bool.
From Stdlib Require Import Permutation.
From Corelib Require PrimFloat.
Import ListNotations.
Local Open Scope string_scope.
Local Open Scope list_scope.

(** ** Strings *)

Definition char := N.
Definition str := list char.

(** An ASCII literal of the source, as code points. *)
Definition lit (s : string) : str := map N_of_ascii (list_ascii_of_string s).

Definition newline : str := [10%N].
Definition dquote : str := [34%N].

(** [str(n)] in Python and [`${n}`] in JavaScript, for an integer. *)
Definition str_of_Z (n : Z) : str := lit (NilZero.string_of_int (Z.to_int n)).

(** [t.startswith(p)] *)
Fixpoint startswith (p t : str) : bool :=
  match p, t with
  | [], _ => true
  | _ :: _, [] => false
  | x :: p', y :: t' => N.eqb x y && startswith p' t'
  end.

(** [p in t] on strings: [p] is a substring of [t]. *)
Fixpoint contains (p t : str) : bool :=
  startswith p t ||
  match t with
  | [] => false
  | _ :: t' => contains p t'
  end.

(** What [contains] decides. *)
Definition occurs (p t : str) : Prop := exists a b, t = a ++ p ++ b.

(** [t.replace(old, new)]: every occurrence of [old], found from the left
    and not overlapping an earlier one, becomes [new].  [skip] counts the
    characters of the current occurrence still to be dropped. *)
Fixpoint replace_go (old new : str) (skip : nat) (t : str) : str :=
  match t with
  | [] => []
  | c :: t' =>
      match skip with
      | S k => replace_go old new k t'
      | O =>
          if startswith old t
          then new ++ replace_go old new (length old - 1) t'
          else c :: replace_go old new 0 t'
      end
  end.

(** With an empty [old], Python puts [new] before every character and at
    the end. *)
Fixpoint replace_empty (new t : str) : str :=
  match t with
  | [] => new
  | c :: t' => new ++ c :: replace_empty new t'
  end.

Definition replace (old new t : str) : str :=
  match old with
  | [] => replace_empty new t
  | _ :: _ => replace_go old new 0 t
  end.

(** ** Prices

    The catalog and the picks count prices in tenths of the currency unit;
    [amount] is what such a raw price stands for. *)

Definition amount (tenths : Z) : Q := (inject_Z tenths / 10)%Q.

(** ** The analysis engine

    The TypeScript passages quoted by [fix_analysis_block.py]. *)

Module AnalysisEngine.

Local Open Scope Q_scope.

(** An element of the player catalog.  The quoted code reads [id] and
    [now_cost] (an integer count of tenths); position class and club are
    the attributes the specification's data model adds. *)
Record Player := {
  id : Z;
  now_cost : Z;
  position_class : Z;
  club : Z
}.

(** A pick of the user's squad: [position] is the slot, 1 to 15. *)
Record Pick := {
  element : Z;
  position : Z;
  selling_price : option Z
}.

(** [{ ...pick, player, sellPrice }] *)
Record ResolvedPick := {
  pick : Pick;
  player : option Player;
  sellPrice : Q
}.

Inductive number :=
| NegInfinity
| Num (q : Q).

(** [a || b] on values that are an integer or [undefined]: [0] and
    [undefined] are falsy. *)
Definition truthy (a : option Z) : bool :=
  match a with
  | Some n => negb (n =? 0)%Z
  | None => false
  end.

Definition js_or (a b : option Z) : option Z := if truthy a then a else b.

(** [a || 0] *)
Definition js_or_zero (a : option Z) : Z :=
  match a with
  | Some n => n
  | None => 0%Z
  end.

(** [(pick.selling_price || player?.now_cost || 0) / 10] *)
Definition computeSellPrice (pk : Pick) (pl : option Player) : Q :=
  inject_Z (js_or_zero (js_or (selling_price pk) (option_map now_cost pl))) / 10.

(** [allPlayers.find(p => p.id === pick.element)] *)
Definition findPlayer (allPlayers : list Player) (pk : Pick) : option Player :=
  find (fun p => (id p =? element pk)%Z) allPlayers.

Definition missingWarning (pk : Pick) : str :=
  lit "[analysis] Player data missing for element " ++ str_of_Z (element pk).

(** The body of the [map] callback: the resolved pick and the lines it
    sends to [console.warn]. *)
Definition resolvePick (allPlayers : list Player) (pk : Pick)
  : ResolvedPick * list str :=
  let player := findPlayer allPlayers pk in
  let warned := match player with
                | None => [missingWarning pk]
                | Some _ => []
                end in
  ({| pick := pk; player := player; sellPrice := computeSellPrice pk player |},
   warned).

(** [xs.map(f)] for a callback that also logs: results in order, log lines
    in order. *)
Fixpoint mapLogging {A B : Type} (f : A -> B * list str) (xs : list A)
  : list B * list str :=
  match xs with
  | [] => ([], [])
  | x :: xs' =>
      let (y, w) := f x in
      let (ys, ws) := mapLogging f xs' in
      (y :: ys, w ++ ws)
  end.

(** [const currentSquad = userSquad.picks.map(pick => ...)] *)
Definition currentSquad (allPlayers : list Player) (picks : list Pick)
  : list ResolvedPick * list str :=
  mapLogging (resolvePick allPlayers) picks.

(** Modelled from the spec: the definition of [filteredSquad] is not among
    the quoted passages; the specification defines it as the resolved picks
    whose player was found. *)
Definition filteredSquad (squad : list ResolvedPick) : list ResolvedPick :=
  filter (fun p => match player p with Some _ => true | None => false end) squad.

(** Modelled from the spec: the computation of [teamValue] is not among the
    quoted passages; the specification defines it as the sum of the sell
    prices of all resolved picks. *)
Definition teamValueOf (squad : list ResolvedPick) : Q :=
  fold_left (fun acc p => acc + sellPrice p) squad 0.

(** [Math.max(...xs)] *)
Definition num_max (a : number) (x : Q) : number :=
  match a with
  | NegInfinity => Num x
  | Num m => Num (Qmax m x)
  end.

Definition Math_max (xs : list Q) : number := fold_left num_max xs NegInfinity.

(** [const maxSellValue = Math.max(...filteredSquad.map(p => p.sellPrice));] *)
Definition maxSellValue (filtered : list ResolvedPick) : number :=
  Math_max (map sellPrice filtered).

(** [bank + x] *)
Definition num_plus (b : Q) (x : number) : number :=
  match x with
  | NegInfinity => NegInfinity
  | Num m => Num (b + m)
  end.

(** Modelled from the spec: the statement that sets [maxPlayerPrice] in the
    nominal case is not among the quoted passages; the specification gives
    [maxPlayerPrice = bank + max(sell price over filteredSquad)]. *)
Definition maxPlayerPriceOf (bank : Q) (filtered : list ResolvedPick)
  : number :=
  num_plus bank (maxSellValue filtered).

(** An entry of the recommendation lists; the quoted code only shows the
    lists empty, the fields are those of the specification. *)
Record Upgrade := {
  outgoing : ResolvedPick;
  incoming : Player;
  priceDelta : Q;
  rationale : str
}.

Record AnalysisResult := {
  bank : Q;
  teamValue : Q;
  freeTransfers : Z;
  nextDeadline : str;
  maxPlayerPrice : number;
  benchUpgrades : list Upgrade;
  starterTargets : list Upgrade;
  riskAssessment : str
}.

(** [const benchPlayers = filteredSquad.filter(p => p.position > 11);] *)
Definition benchPlayers (filtered : list ResolvedPick) : list ResolvedPick :=
  filter (fun p => (11 <? position (pick p))%Z) filtered.

(** [const starterPlayers = filteredSquad.filter(p => p.position <= 11);] *)
Definition starterPlayers (filtered : list ResolvedPick) : list ResolvedPick :=
  filter (fun p => (position (pick p) <=? 11)%Z) filtered.

Section Compute.

(** The recommendation generator and the risk assessor run after the
    quoted passages and are not among them: [compute] takes them as
    parameters.  The generator receives the usable squad, its bench and its
    starters, the catalog, the price ceiling and the free transfers; the
    assessor the usable squad. *)
Variable generate :
  list ResolvedPick -> list ResolvedPick -> list ResolvedPick ->
  list Player -> number -> Z -> list Upgrade * list Upgrade.
Variable assess : list ResolvedPick -> str.

(** The block from [currentSquad] to [maxSellValue], closed by the
    result of the nominal case. *)
Definition compute (allPlayers : list Player) (picks : list Pick)
    (bank : Q) (freeTransfers : Z) (nextDeadline : str)
  : AnalysisResult * list str :=
  let (squad, warnings) := currentSquad allPlayers picks in
  let teamValue := teamValueOf squad in
  let filtered := filteredSquad squad in
  let bench := benchPlayers filtered in
  let starters := starterPlayers filtered in
  if (length filtered =? 0)%nat then
    ({| bank := bank;
        teamValue := teamValue;
        freeTransfers := freeTransfers;
        nextDeadline := nextDeadline;
        maxPlayerPrice := Num bank;
        benchUpgrades := [];
        starterTargets := [];
        riskAssessment := lit "insufficient-data" |}, warnings)
  else
    let ceiling := maxPlayerPriceOf bank filtered in
    let (benchUps, starterUps) :=
      generate filtered bench starters allPlayers ceiling freeTransfers in
    ({| bank := bank;
        teamValue := teamValue;
        freeTransfers := freeTransfers;
        nextDeadline := nextDeadline;
        maxPlayerPrice := ceiling;
        benchUpgrades := benchUps;
        starterTargets := starterUps;
        riskAssessment := assess filtered |}, warnings).

End Compute.

End AnalysisEngine.

(** ** Sell prices and team value in double precision *)

Module Doubles.

Import AnalysisEngine.

(** A JavaScript number: an IEEE 754 double, rounded to nearest even. *)
Definition double : Type := PrimFloat.float.

(** The double of an integer; exact below 2^53, which every raw price
    is. *)
Fixpoint double_of_pos (p : positive) : double :=
  match p with
  | xH => PrimFloat.one
  | xO q => PrimFloat.mul PrimFloat.two (double_of_pos q)
  | xI q => PrimFloat.add (PrimFloat.mul PrimFloat.two (double_of_pos q))
                          PrimFloat.one
  end.

Definition double_of_Z (n : Z) : double :=
  match n with
  | Z0 => PrimFloat.zero
  | Zpos p => double_of_pos p
  | Zneg p => PrimFloat.opp (double_of_pos p)
  end.

(** [(pick.selling_price || player?.now_cost || 0) / 10], as the double it
    is. *)
Definition computeSellPrice (pk : Pick) (pl : option Player) : double :=
  PrimFloat.div
    (double_of_Z (js_or_zero (js_or (selling_price pk)
                                (option_map now_cost pl))))
    (double_of_Z 10).

(** The sell prices of [currentSquad], in the order of the picks. *)
Definition sellPrices (allPlayers : list Player) (picks : list Pick)
  : list double :=
  map (fun pk => computeSellPrice pk (findPlayer allPlayers pk)) picks.

(** Modelled from the spec: the computation of [teamValue] is not among the
    quoted passages; the specification defines it as the sum of the sell
    prices of all resolved picks, here added one after the other from 0 in
    the order of the picks. *)
Definition teamValue (allPlayers : list Player) (picks : list Pick)
  : double :=
  fold_left PrimFloat.add (sellPrices allPlayers picks) PrimFloat.zero.

End Doubles.

(** ** The recommendation generator

    The generator is not in the repository files at hand: every definition
    of this module is modelled from section 4.3 of the specification. *)

Module Recommendation.

Import AnalysisEngine.
Local Open Scope Q_scope.

(** A catalog price in currency units, as [sellPrice] is. *)
Definition price (p : Player) : Q := amount (now_cost p).

Definition affordable (ceiling : number) (p : Player) : bool :=
  match ceiling with
  | NegInfinity => false
  | Num m => Qle_bool (price p) m
  end.

Definition samePosition (out : ResolvedPick) (p : Player) : bool :=
  match player out with
  | Some q => (position_class q =? position_class p)%Z
  | None => false
  end.

Definition inSquad (squad : list ResolvedPick) (p : Player) : bool :=
  existsb (fun r => (element (pick r) =? id p)%Z) squad.

Definition playsFor (c : Z) (r : ResolvedPick) : bool :=
  match player r with
  | Some q => (club q =? c)%Z
  | None => false
  end.

Definition clubCount (c : Z) (squad : list ResolvedPick) : nat :=
  length (filter (playsFor c) squad).

(** The squad once [out] has left it. *)
Definition without (out : ResolvedPick) (squad : list ResolvedPick)
  : list ResolvedPick :=
  filter (fun r => negb (element (pick r) =? element (pick out))%Z) squad.

(** The count of club [c] once [out] has left and [p] has joined. *)
Definition clubCountAfter (squad : list ResolvedPick) (out : ResolvedPick)
    (p : Player) (c : Z) : nat :=
  (clubCount c (without out squad) + if (club p =? c)%Z then 1 else 0)%nat.

Definition capLegal (squad : list ResolvedPick) (out : ResolvedPick)
    (p : Player) : bool :=
  (clubCountAfter squad out p (club p) <=? 3)%nat.

(** Ranking: best score first. *)
Fixpoint insertBy (sc : Player -> Q) (p : Player) (l : list Player)
  : list Player :=
  match l with
  | [] => [p]
  | q :: l' => if Qle_bool (sc q) (sc p) then p :: l else q :: insertBy sc p l'
  end.

Definition rankBy (sc : Player -> Q) (l : list Player) : list Player :=
  fold_right (insertBy sc) [] l.

Section Generator.

(** The tunable policy the specification leaves open: the two rankings,
    what counts as an improvement, how many candidates a slot gets, and
    the wording of the rationale. *)
Variable benchScore : ResolvedPick -> Player -> Q.
Variable starterScore : ResolvedPick -> Player -> Q.
Variable improves : ResolvedPick -> Player -> bool.
Variable perSlot : nat.
Variable explain : ResolvedPick -> Player -> str.

(** Modelled from the spec: the legality of a swap, the generator being
    absent: same position, price within [maxPlayerPrice], not already in the
    squad, club cap kept. *)
Definition legal (squad : list ResolvedPick) (ceiling : number)
    (out : ResolvedPick) (p : Player) : bool :=
  samePosition out p && affordable ceiling p && negb (inSquad squad p)
  && capLegal squad out p.

Definition candidates (squad : list ResolvedPick) (catalog : list Player)
    (ceiling : number) (out : ResolvedPick) : list Player :=
  filter (fun p => legal squad ceiling out p && improves out p) catalog.

Definition mkUpgrade (out : ResolvedPick) (p : Player) : Upgrade :=
  {| outgoing := out;
     incoming := p;
     priceDelta := price p - sellPrice out;
     rationale := explain out p |}.

Definition upgradesFor (score : ResolvedPick -> Player -> Q)
    (squad : list ResolvedPick) (catalog : list Player) (ceiling : number)
    (out : ResolvedPick) : list Upgrade :=
  map (mkUpgrade out)
      (firstn perSlot (rankBy (score out) (candidates squad catalog ceiling out))).

(** Modelled from the spec: the recommendation generator is not in the
    repository files at hand.  Following section 4.3: for each player of
    the bench, and likewise of the starters, keep the catalog players of
    the same position, priced within [maxPlayerPrice], not already in the
    squad and within the club cap; rank them by the policy and emit the
    top ones. *)
Definition generate (filtered bench starters : list ResolvedPick)
    (catalog : list Player) (ceiling : number) (freeTransfers : Z)
  : list Upgrade * list Upgrade :=
  (flat_map (upgradesFor benchScore filtered catalog ceiling) bench,
   flat_map (upgradesFor starterScore filtered catalog ceiling) starters).

End Generator.

End Recommendation.

(** ** fix_analysis_block.py *)

Module PatchScript.

(** The five literals of the script.  In [old] and [old2] the line ends
    are the four characters backslash, r, backslash, n; in [new] and [new2]
    they are line feeds. *)

Definition old : str :=
  lit "const currentSquad = userSquad.picks.map(pick => {\r\n" ++
  lit "      const player = allPlayers.find(p => p.id === pick.element);\r\n" ++
  lit "      if (!player) {\r\n" ++
  lit "        console.warn(`[analysis] Player data missing for element ${pick.element}`);\r\n" ++
  lit "      }\r\n" ++
  lit "\r\n" ++
  lit "      return {\r\n" ++
  lit "        ...pick,\r\n" ++
  lit "        player,\r\n" ++
  lit "        sellPrice: (pick.selling_price || player?.now_cost || 0) / 10,\r\n" ++
  lit "      };\r\n" ++
  lit "    });".

Definition new : str :=
  lit "const currentSquad = userSquad.picks.map(pick => {" ++ newline ++
  lit "      const player = allPlayers.find(p => p.id === pick.element);" ++ newline ++
  lit "      if (!player) {" ++ newline ++
  lit "        console.warn(`[analysis] Player data missing for element ${pick.element}`);" ++ newline ++
  lit "      }" ++ newline ++
  newline ++
  lit "      return {" ++ newline ++
  lit "        ...pick," ++ newline ++
  lit "        player," ++ newline ++
  lit "        sellPrice: (pick.selling_price || player?.now_cost || 0) / 10," ++ newline ++
  lit "      };" ++ newline ++
  lit "    });".

Definition old2 : str :=
  lit "const benchPlayers = filteredSquad.filter(p => p.position > 11);\r\n" ++
  lit "    const starterPlayers = filteredSquad.filter(p => p.position <= 11);\r\n" ++
  lit "\r\n" ++
  lit "    if (filteredSquad.length === 0) {\r\n" ++
  lit "      return {\r\n" ++
  lit "        bank,\r\n" ++
  lit "        teamValue,\r\n" ++
  lit "        freeTransfers,\r\n" ++
  lit "        nextDeadline,\r\n" ++
  lit "        maxPlayerPrice: bank,\r\n" ++
  lit "        benchUpgrades: [],\r\n" ++
  lit "        starterTargets: [],\r\n" ++
  lit "        riskAssessment: " ++ dquote ++ lit "insufficient-data" ++ dquote ++ lit ",\r\n" ++
  lit "      };\r\n" ++
  lit "    }".

Definition new2 : str :=
  lit "const benchPlayers = filteredSquad.filter(p => p.position > 11);" ++ newline ++
  lit "    const starterPlayers = filteredSquad.filter(p => p.position <= 11);" ++ newline ++
  newline ++
  lit "    if (filteredSquad.length === 0) {" ++ newline ++
  lit "      return {" ++ newline ++
  lit "        bank," ++ newline ++
  lit "        teamValue," ++ newline ++
  lit "        freeTransfers," ++ newline ++
  lit "        nextDeadline," ++ newline ++
  lit "        maxPlayerPrice: bank," ++ newline ++
  lit "        benchUpgrades: []," ++ newline ++
  lit "        starterTargets: []," ++ newline ++
  lit "        riskAssessment: " ++ dquote ++ lit "insufficient-data" ++ dquote ++ lit "," ++ newline ++
  lit "      };" ++ newline ++
  lit "    }".

Definition old3 : str :=
  lit "const maxSellValue = Math.max(...filteredSquad.map(p => p.sellPrice));".

Inductive exn :=
| SystemExit (msg : str)
| FileNotFoundError.

(** The one file the script touches, [server/services/analysisEngine.ts],
    as the script sees it: the text [read_text] returns for it if it exists
    and can be decoded, and the texts handed to [write_text] so far.  The
    bytes of the file, their decoding and the line ends are in
    [PatchScriptIO] below. *)
Record disk := {
  file : option str;
  written : list str
}.

(** A script step: it raises or returns, and leaves a disk. *)
Definition script (A : Type) : Type := disk -> (exn + A) * disk.

Definition ret {A : Type} (a : A) : script A := fun d => (inr a, d).

Definition raise {A : Type} (e : exn) : script A := fun d => (inl e, d).

Definition bind {A B : Type} (m : script A) (k : A -> script B) : script B :=
  fun d =>
    match m d with
    | (inl e, d') => (inl e, d')
    | (inr a, d') => k a d'
    end.

Notation "x <- m ;; k" := (bind m (fun x => k))
  (at level 61, m at next level, right associativity).
Notation "m ;; k" := (bind m (fun _ => k))
  (at level 61, right associativity).

(** [path.read_text()] *)
Definition read_text : script str :=
  fun d =>
    match file d with
    | Some t => (inr t, d)
    | None => (inl FileNotFoundError, d)
    end.

(** [path.write_text(text, encoding='utf-8')] *)
Definition write_text (t : str) : script unit :=
  fun d => (inr tt, {| file := Some t; written := written d ++ [t] |}).

(** [if pat not in text: raise SystemExit(msg)] *)
Definition require (pat text msg : str) : script unit :=
  if negb (contains pat text) then raise (SystemExit msg) else ret tt.

Definition fix_analysis_block : script unit :=
  text <- read_text ;;
  require old text (lit "pattern not found for currentSquad") ;;
  let text := replace old new text in
  require old2 text (lit "pattern not found for benchPlayers") ;;
  let text := replace old2 new2 text in
  require old3 text (lit "pattern not found for maxSellValue") ;;
  let text := replace old3 old3 text in
  write_text text.

(** The disk on which the script starts: the file holds [content], nothing
    has been written. *)
Definition initially (content : str) : disk :=
  {| file := Some content; written := [] |}.

End PatchScript.

(** ** fix_analysis_block.py, with the file as bytes

    [PatchScript] has the file as the text the script works on.  Here the
    file is what is on the disk: [read_text] decodes it and translates its
    line ends, [write_text] translates them back and encodes. *)

Module PatchScriptIO.

(** Reading in text mode with [newline=None]: CR LF and a CR alone become
    LF. *)
Fixpoint universal_newlines (t : str) : str :=
  match t with
  | [] => []
  | c :: t' =>
      if (c =? 13)%N then
        10%N :: match t' with
                | [] => []
                | d :: t'' =>
                    if (d =? 10)%N then universal_newlines t''
                    else universal_newlines t'
                end
      else c :: universal_newlines t'
  end.

(** Writing in text mode with [newline=None]: every LF becomes
    [os.linesep]. *)
Definition write_newlines (linesep t : str) : str :=
  flat_map (fun c => if (c =? 10)%N then linesep else [c]) t.

Inductive exn :=
| SystemExit (msg : str)
| FileNotFoundError
| UnicodeDecodeError.

Section IO.

(** The bytes of a file; the decoding [read_text()] does, in the encoding
    of the locale, [None] when it raises; the UTF-8 encoding
    [write_text(..., encoding='utf-8')] does, which takes every text a
    decoding gives; and [os.linesep]. *)
Variable byte : Type.
Variable decode : list byte -> option str.
Variable encode : str -> list byte.
Variable linesep : str.

(** [server/services/analysisEngine.ts]: its bytes if it exists, and what
    was written to it so far. *)
Record disk := {
  file : option (list byte);
  written : list (list byte)
}.

(** [path.read_text()] *)
Definition read_text (d : disk) : exn + str :=
  match file d with
  | None => inl FileNotFoundError
  | Some bytes =>
      match decode bytes with
      | None => inl UnicodeDecodeError
      | Some raw => inr (universal_newlines raw)
      end
  end.

(** [path.write_text(text, encoding='utf-8')] *)
Definition write_text (text : str) (d : disk) : disk :=
  {| file := Some (encode (write_newlines linesep text));
     written := written d ++ [encode (write_newlines linesep text)] |}.

Definition fix_analysis_block (d : disk) : (exn + unit) * disk :=
  match read_text d with
  | inl e => (inl e, d)
  | inr text =>
      if negb (contains PatchScript.old text) then
        (inl (SystemExit (lit "pattern not found for currentSquad")), d)
      else
        let text := replace PatchScript.old PatchScript.new text in
        if negb (contains PatchScript.old2 text) then
          (inl (SystemExit (lit "pattern not found for benchPlayers")), d)
        else
          let text := replace PatchScript.old2 PatchScript.new2 text in
          if negb (contains PatchScript.old3 text) then
            (inl (SystemExit (lit "pattern not found for maxSellValue")), d)
          else
            let text := replace PatchScript.old3 PatchScript.old3 text in
            (inr tt, write_text text d)
  end.

End IO.

Arguments file {byte} d.
Arguments written {byte} d.

End PatchScriptIO.

(** ** scripts/test_ai_copilot_fixes.py *)

Module CopilotFixes.

Local Open Scope Q_scope.

Record TestCase := {
  name : str;
  message : str;
  expected_contains : list str;
  should_not_contain : list str
}.

(** The dictionary [test_chat_endpoint] returns: the keys the harness
    reads. *)
Record ChatResult := {
  error : option str;
  answer : option str;
  response_time : Q
}.

(** The pound sign, U+00A3, and what it looks like once its UTF-8 bytes
    C2 A3 were decoded as Latin-1: U+00C2 U+00A3. *)
Definition pound : str := [163%N].
Definition garbled_pound : str := [194%N; 163%N].

(** [result.get('message', '')] *)
Definition get_message (result : ChatResult) : str :=
  match answer result with
  | Some m => m
  | None => []
  end.

Section Harness.

(** [str.lower] and the [:.2f] format are taken as given. *)
Variable lower : str -> str.
Variable format_2f : Q -> str.

(** The loop state: [test_passed] and [issues]. *)
Definition verdict : Type := bool * list str.

(** [test_passed = False; issues.append(issue)] *)
Definition fail (v : verdict) (issue : str) : verdict :=
  (false, snd v ++ [issue]).

(** [issues.append(issue)] *)
Definition note (v : verdict) (issue : str) : verdict :=
  (fst v, snd v ++ [issue]).

(** [if expected.lower() not in result.get('message', '').lower(): ...] *)
Definition check_expected (msg : str) (v : verdict) (expected : str)
  : verdict :=
  if negb (contains (lower expected) (lower msg))
  then fail v (lit "Missing expected content: " ++ expected)
  else v.

(** [if forbidden.lower() in result.get('message', '').lower(): ...] *)
Definition check_forbidden (msg : str) (v : verdict) (forbidden : str)
  : verdict :=
  if contains (lower forbidden) (lower msg)
  then fail v (lit "Found forbidden content: " ++ forbidden)
  else v.

(** The currency check, lines 124 to 129: if the pound sign is in the
    message, then if the garbled pound sign or (the second operand of [or],
    the empty string in the source) [''] is in the message, fail. *)
Definition check_currency (msg : str) (v : verdict) : verdict :=
  if contains pound msg then
    if contains garbled_pound msg || contains [] msg
    then fail v (lit "Found garbled currency symbols")
    else v
  else v.

(** [if response_time > 15: issues.append(...)] *)
Definition check_response_time (t : Q) (v : verdict) : verdict :=
  if Qlt_le_dec 15 t
  then note v (lit "Slow response time: " ++ format_2f t ++ lit "s")
  else v.

(** The body of the loop of [run_comprehensive_test], for one test case
    and the result of its request; [if "error" in result] comes first. *)
Definition judge (test_case : TestCase) (result : ChatResult) : verdict :=
  let v : verdict := (true, []) in
  match error result with
  | Some e => fail v (lit "API Error: " ++ e)
  | None =>
      let v := fold_left (check_expected (get_message result))
                         (expected_contains test_case) v in
      let v := fold_left (check_forbidden (get_message result))
                         (should_not_contain test_case) v in
      let v := check_currency (get_message result) v in
      check_response_time (response_time result) v
  end.

End Harness.

End CopilotFixes.

(** ** The grounding validator *)

Module GroundingValidator.

Inductive ViolationKind :=
| UnknownPlayer
| StaleGameweek
| CurrencyEncoding
| MissingCurrency.

Record Validation := {
  accepted : bool;
  violations : list ViolationKind
}.

Definition when (b : bool) (k : ViolationKind) : list ViolationKind :=
  if b then [k] else [].

Section Validator.

(** The three rules whose detail the specification leaves to the
    implementer: a player named outside the squad and the recommendations,
    a gameweek outside the valid window, a price without currency. *)
Variable mentionsUnknownPlayer :
  str -> AnalysisEngine.AnalysisResult -> bool.
Variable referencesStaleGameweek : str -> bool.
Variable omitsCurrency : str -> bool.

(** Modelled from the spec: the validator runs in the server and is not in
    the repository files at hand.  Following section 4.5, it collects a
    violation per rule that the answer breaks and accepts the answer when
    there is none; the malformed currency glyph is the mis-decoded pound
    sign the harness looks for. *)
Definition validate (answerText : str)
    (analysisResult : AnalysisEngine.AnalysisResult) : Validation :=
  let found :=
    when (mentionsUnknownPlayer answerText analysisResult) UnknownPlayer
    ++ when (referencesStaleGameweek answerText) StaleGameweek
    ++ when (contains CopilotFixes.garbled_pound answerText) CurrencyEncoding
    ++ when (omitsCurrency answerText) MissingCurrency in
  {| accepted := match found with [] => true | _ :: _ => false end;
     violations := found |}.

End Validator.

End GroundingValidator.

(** ** scripts/run_ai_copilot_test.py *)

Module CopilotRun.

Definition analysis_focus : list str :=
  [ lit "clean sheets";
    lit "captaincy choices";
    lit "bench depth";
    lit "rotation risks";
    lit "double gameweek preparation";
    lit "price rise potential";
    lit "premium balance";
    lit "midfield form";
    lit "defensive stability";
    lit "attacking upside";
    lit "fixture swings";
    lit "bench boost readiness" ].

Definition transfer_scenarios : list (str * str * str) :=
  [ (lit "sell Watkins", lit "buy Isak", lit "chasing Newcastle's fixtures");
    (lit "move out Salah", lit "bring in Son", lit "budget reallocation");
    (lit "downgrade a defender", lit "upgrade a forward", lit "improve goal threat");
    (lit "replace injured striker", lit "sign a differential", lit "gain rank");
    (lit "swap out budget midfielder", lit "bring in Palmer", lit "capitalise on form");
    (lit "remove an underperforming premium", lit "add Saka", lit "stability");
    (lit "ship a bench defender", lit "bring in Porro", lit "attacking returns");
    (lit "free up cash", lit "buy Haaland", lit "captaincy security");
    (lit "replace goalkeeper", lit "add Areola", lit "save funds");
    (lit "trade Semenyo", lit "recruit Solanke", lit "fixture swing");
    (lit "remove double up", lit "spread risk", lit "mini-league pressure");
    (lit "sell suspended player", lit "bring in a starter", lit "avoid blanks") ].

Definition chip_scenarios : list str :=
  [ lit "Is Gameweek 8 a good time for my wildcard?";
    lit "Should I hold triple captain for a confirmed double gameweek?";
    lit "Evaluate using bench boost right after wildcard.";
    lit "Compare free hit in a blank versus a double gameweek.";
    lit "When should I line up the second wildcard if I already used the first?";
    lit "Assess triple captain options for a premium forward in a single gameweek.";
    lit "Judge whether to free hit during heavy European rotation weeks.";
    lit "Outline a plan to pair wildcard and bench boost effectively.";
    lit "How soon should I schedule bench boost after building value?";
    lit "What chip strategy fits a team chasing top 50k from mid-table position?" ].

Definition fixture_scenarios : list str :=
  [ lit "Rate Aston Villa's next five fixtures for attack and defence.";
    lit "How tough is Brentford's run from Gameweek 7 to 11?";
    lit "Spot fixture swings that benefit budget defenders soon.";
    lit "Which teams have back-to-back away matches with low FDR?";
    lit "Highlight any double gameweeks expected around Gameweek 12.";
    lit "Identify clubs facing strong opposition three weeks in a row.";
    lit "Compare fixture difficulty for Spurs and Chelsea over the next month.";
    lit "Which promoted team has the softest autumn schedule?";
    lit "Flag a window to target Liverpool assets based on fixtures.";
    lit "When do Manchester United fixtures turn positive again?" ].

Definition comparison_pairs : list (str * str * str) :=
  [ (lit "Saka", lit "Foden", lit "midfield pick");
    (lit "Watkins", lit "Isak", lit "forward slot");
    (lit "Palmer", lit "Gordon", lit "mid-price midfielder");
    (lit "Gabriel", lit "Botman", lit "defender value");
    (lit "Areola", lit "Flekken", lit "budget keeper");
    (lit "Toney", lit "Solanke", lit "striker differential");
    (lit "Diaz", lit "Kulusevski", lit "midfield punt");
    (lit "Mitoma", lit "Bailey", lit "fixture run");
    (lit "Trippier", lit "Pedro Porro", lit "premium defender");
    (lit "Gross", lit "Eze", lit "set-piece reliability") ].

Definition injury_checks : list str :=
  [ lit "Is Darwin Nunez likely to start this week after recent knocks?";
    lit "Update me on Wilson's hamstring status before the weekend.";
    lit "Is Martinelli expected back in training for the next fixture?";
    lit "What is the outlook on Reece James minutes after his return?";
    lit "Should I worry about Saka's minor knock from last match?";
    lit "Is Luke Shaw close to full fitness for Manchester United?";
    lit "Provide the latest on Evan Ferguson's availability.";
    lit "Any setback for Matty Cash after his midweek appearance?" ].

Definition differential_hunts : list str :=
  [ lit "Suggest under 10 percent owned midfielders with upside.";
    lit "Name a differential forward with good xG in the next month.";
    lit "List defensive punts who cover clean sheets and attacking threat.";
    lit "Identify low-owned captain punts for a high-risk week.";
    lit "Spot hidden gems from promoted teams worth short term investment.";
    lit "Which bench enablers could explode during festive congestion?";
    lit "Find differentials for managers chasing in mini-leagues.";
    lit "Target sub 5 percent owned assets that align with fixture swings." ].

Definition budget_management : list str :=
  [ lit "Help me stretch a 100.5 million budget without sacrificing premiums.";
    lit "How can I rebalance funds from defence to attack efficiently?";
    lit "Is it viable to go without Haaland and spread cash elsewhere?";
    lit "Advise on downgrading goalkeeper to free funds for midfield upgrade.";
    lit "Plan a two transfer sequence to fund a premium defender move.";
    lit "Suggest budget-friendly midfield rotations for autumn.";
    lit "Manage price drops after an early wildcard without losing value.";
    lit "What is the best way to bank cash for a future double gameweek?";
    lit "Should I chase team value rises aggressively right now?";
    lit "How much money should remain in the bank for flexibility?" ].

Definition risk_profiles : list str :=
  [ lit "Outline a conservative strategy to protect a narrow mini-league lead.";
    lit "Design an aggressive plan to climb 500k ranks quickly.";
    lit "How risky is it to triple up on one club's attack right now?";
    lit "When is it smart to take a four point hit in the next month?";
    lit "Balance short term punts with long term structure for my squad.";
    lit "Should I mirror template teams or back contrarian picks?";
    lit "Quantify the risk of rolling transfers versus taking hits.";
    lit "Is it viable to captain a defender when chasing?";
    lit "How can I manage volatility during December fixture congestion?";
    lit "What risk profile suits an FPL manager targeting top 10k?" ].

Definition general_queries : list str :=
  [ lit "Summarise key talking points from the latest press conferences.";
    lit "Which stats should I monitor weekly to stay ahead?";
    lit "Give me a checklist for finalising my squad on deadline day.";
    lit "How should I plan around international breaks to avoid injuries?";
    lit "Share best practices for monitoring price changes daily.";
    lit "What are the biggest mistakes to avoid in the next five gameweeks?";
    lit "Explain how to integrate expected goals into my decisions.";
    lit "Provide advice for managing both FPL and Champions League fantasy.";
    lit "What late season tactics help secure mini-league wins?";
    lit "Offer tips for evaluating eye test versus data driven calls." ].

Inductive exn :=
| ValueError (msg : str).

(** [enumerate(xs, start)] *)
Fixpoint enumerate {A : Type} (xs : list A) (start : Z) : list (Z * A) :=
  match xs with
  | [] => []
  | x :: xs' => (start, x) :: enumerate xs' (start + 1)
  end.

Definition build_questions : exn + list (str * str) :=
  let questions : list (str * str) := [] in
  let questions := questions ++
    map (fun '(idx, topic) =>
           let gw := (7 + idx mod 6)%Z in
           (lit "squad_analysis",
            lit "Analyze my squad with emphasis on " ++ topic ++
            lit " ahead of Gameweek " ++ str_of_Z gw ++ lit "."))
        (enumerate analysis_focus 1) in
  let questions := questions ++
    map (fun '(out_desc, in_desc, reason) =>
           (lit "transfer_strategy",
            lit "Help me " ++ out_desc ++ lit " and " ++ in_desc ++
            lit " for " ++ reason ++ lit "."))
        transfer_scenarios in
  let questions := questions ++
    map (fun prompt => (lit "chip_strategy", prompt)) chip_scenarios in
  let questions := questions ++
    map (fun prompt => (lit "fixture_analysis", prompt)) fixture_scenarios in
  let questions := questions ++
    map (fun '(left', right', context) =>
           (lit "player_comparison",
            lit "Compare " ++ left' ++ lit " versus " ++ right' ++
            lit " as my " ++ context ++ lit "."))
        comparison_pairs in
  let questions := questions ++
    map (fun prompt => (lit "injury_news", prompt)) injury_checks in
  let questions := questions ++
    map (fun prompt => (lit "differentials", prompt)) differential_hunts in
  let questions := questions ++
    map (fun prompt => (lit "budgeting", prompt)) budget_management in
  let questions := questions ++
    map (fun prompt => (lit "risk_management", prompt)) risk_profiles in
  let questions := questions ++
    map (fun prompt => (lit "general_strategy", prompt)) general_queries in
  if negb (length questions =? 100)%nat then
    inl (ValueError (lit "Expected 100 questions, got " ++
                     str_of_Z (Z.of_nat (length questions))))
  else
    inr questions.

End CopilotRun.

(** ** scripts/test_ai_copilot_fixes.py: the requests *)

Module AICopilotTester.

Local Open Scope Q_scope.

(** What [response.json()] and the assignment [data['response_time'] = ...]
    make of the body: a dictionary, of which the harness reads the entries
    ["error"] and ["message"] (strings when present), or an exception, of
    which it keeps [str(e)]. *)
Inductive Body :=
| Dict (error message : option str)
| Unusable (why : str).

(** What sending one message comes to: [requests.post] raises, or answers
    with a status code and a body.  [elapsed] is [end_time - start_time];
    [elapsed_late] is [time.time() - start_time] read in the handler. *)
Inductive Exchange :=
| Raised (why : str) (elapsed_late : Q)
| Responded (status_code : Z) (body : Body) (elapsed elapsed_late : Q).

(** [test_chat_endpoint(self, message)]; [post] stands for the server
    behind [requests.post] and for the clock. *)
Definition test_chat_endpoint (post : str -> Exchange) (message : str)
  : CopilotFixes.ChatResult :=
  match post message with
  | Responded status_code body elapsed elapsed_late =>
      if (status_code =? 200)%Z then
        match body with
        | Dict error message =>
            {| CopilotFixes.error := error;
               CopilotFixes.answer := message;
               CopilotFixes.response_time := elapsed |}
        | Unusable why =>
            {| CopilotFixes.error := Some why;
               CopilotFixes.answer := None;
               CopilotFixes.response_time := elapsed_late |}
        end
      else
        {| CopilotFixes.error := Some (lit "HTTP " ++ str_of_Z status_code);
           CopilotFixes.answer := None;
           CopilotFixes.response_time := elapsed |}
  | Raised why elapsed_late =>
      {| CopilotFixes.error := Some why;
         CopilotFixes.answer := None;
         CopilotFixes.response_time := elapsed_late |}
  end.

Definition test_cases : list CopilotFixes.TestCase :=
  [ {| CopilotFixes.name := lit "Transfer suggestions test";
       CopilotFixes.message := lit "Who should I transfer in?";
       CopilotFixes.expected_contains := [lit "Semenyo"; lit "FDR"];
       CopilotFixes.should_not_contain :=
         [lit "Watkins"; lit "Reijnders"; lit "Watford"; lit "GW1";
          lit "GW19"] |};
    {| CopilotFixes.name := lit "Squad analysis test";
       CopilotFixes.message := lit "Analyze my squad";
       CopilotFixes.expected_contains := [lit "defensive"; lit "midfield"];
       CopilotFixes.should_not_contain :=
         [lit "Watford"; lit "Liverpool"; lit "Chelsea"; lit "GW1";
          lit "GW19"] |};
    {| CopilotFixes.name := lit "Player price test";
       CopilotFixes.message := lit "What are my players' prices?";
       CopilotFixes.expected_contains := [lit "help"];
       CopilotFixes.should_not_contain := [CopilotFixes.garbled_pound] |};
    {| CopilotFixes.name := lit "Fixture analysis test";
       CopilotFixes.message := lit "What fixtures do my players have?";
       CopilotFixes.expected_contains := [lit "defensive"; lit "security"];
       CopilotFixes.should_not_contain :=
         [lit "GW1"; lit "GW19"; lit "Liverpool"; lit "Chelsea"] |};
    {| CopilotFixes.name := lit "Chip strategy test";
       CopilotFixes.message := lit "What's my chip strategy?";
       CopilotFixes.expected_contains := [lit "Triple Captain"; lit "Wirtz"];
       CopilotFixes.should_not_contain := [lit "GW1"; lit "GW19"] |} ].

End AICopilotTester.

(** ** scripts/test_ai_copilot_fixes.py: the run

    A body is here whatever [response.json()] returns, and the operations
    of the loop on it raise what Python raises.  The printing is left out:
    the standard output is taken to accept the text. *)

Module ComprehensiveTest.

Local Open Scope Q_scope.

(** A value [response.json()] returns; an object is the dictionary it was
    decoded to, its keys looked up from the front. *)
#[warnings="-register-all"]
Inductive Json :=
| JNull
| JBool (b : bool)
| JNumber (q : Q)
| JString (s : str)
| JArray (items : list Json)
| JObject (entries : list (str * Json)).

(** The exceptions that leave [run_comprehensive_test] and [main]. *)
Inductive exn :=
| AttributeError
| TypeError
| ZeroDivisionError
| OSError.

(** What sending one message comes to: [requests.post] raises, or answers
    with a status code and a body, which [response.json()] decodes or
    raises on, with [str(e)].  [elapsed] is [end_time - start_time];
    [elapsed_late] is [time.time() - start_time] read in the handler. *)
Inductive Reply :=
| Raised (why : str) (elapsed_late : Q)
| Responded (status_code : Z) (body : str + Json) (elapsed elapsed_late : Q).

(** The dictionary [test_chat_endpoint] returns: its entry
    ["response_time"], which is always there, and its other entries. *)
Record Result := {
  entries : list (str * Json);
  response_time : Q
}.

Fixpoint str_eqb (a b : str) : bool :=
  match a, b with
  | [], [] => true
  | x :: a', y :: b' => (x =? y)%N && str_eqb a' b'
  | _, _ => false
  end.

(** [d.get(key)], [None] when the key is absent. *)
Fixpoint get (key : str) (d : list (str * Json)) : option Json :=
  match d with
  | [] => None
  | (k, v) :: d' => if str_eqb k key then Some v else get key d'
  end.

(** [del d[key]] *)
Definition without (key : str) (d : list (str * Json))
  : list (str * Json) :=
  filter (fun e => negb (str_eqb (fst e) key)) d.

(** [needle in v] for a string [needle]: a substring of a string, an item
    of a list, a key of a dictionary; [TypeError] on the other values. *)
Definition is_in (needle : str) (v : Json) : exn + bool :=
  match v with
  | JString s => inr (contains needle s)
  | JArray items =>
      inr (existsb (fun item => match item with
                                | JString s => str_eqb s needle
                                | _ => false
                                end) items)
  | JObject d => inr (existsb (fun e => str_eqb (fst e) needle) d)
  | JNull | JBool _ | JNumber _ => inl TypeError
  end.

(** An entry of [results['test_details']]. *)
Record TestDetail := {
  test_name : str;
  message : str;
  result : Result;
  passed : bool;
  issues : list str
}.

(** The three entries added when [results['response_times']] is not
    empty. *)
Record Stats := {
  avg_response_time : Q;
  max_response_time : Q;
  min_response_time : Q
}.

(** The dictionary [results]. *)
Record Results := {
  total_tests : nat;
  passed_tests : nat;
  failed_tests : nat;
  errors : list str;
  response_times : list Q;
  test_details : list TestDetail;
  stats : option Stats
}.

(** [max(xs)] and [min(xs)] of a list that is not empty: the first element
    is kept until a greater, resp. a smaller, one comes. *)
Definition py_max (x : Q) (xs : list Q) : Q :=
  fold_left (fun m y => if Qlt_le_dec m y then y else m) xs x.

Definition py_min (x : Q) (xs : list Q) : Q :=
  fold_left (fun m y => if Qlt_le_dec y m then y else m) xs x.

Section Run.

(** [str.lower] and the [:.2f] format are taken as given, and so are: what
    an f-string shows of a value that is no string; [str(e)] of the
    [TypeError] that [data['response_time'] = ...] raises on a body that is
    no dictionary; [sum(xs) / len(xs)] in double precision. *)
Variable lower : str -> str.
Variable format_2f : Q -> str.
Variable format_value : Json -> str.
Variable assignment_error : Json -> str.
Variable average : list Q -> Q.

(** The server and the clock: what the request number [i], counted from 0,
    comes to. *)
Variable post : nat -> str -> Reply.

(** Whether [open('logs/ai_copilot_fixes_test.json', 'w')] opens the file
    and the results get written; it does not when there is no directory
    [logs]. *)
Variable log_opens : bool.

(** [test_chat_endpoint(self, message)], for the request number [i]. *)
Definition test_chat_endpoint (i : nat) (message : str) : Result :=
  match post i message with
  | Responded status_code body elapsed elapsed_late =>
      if (status_code =? 200)%Z then
        match body with
        | inr (JObject data) =>
            {| entries := without (lit "response_time") data;
               response_time := elapsed |}
        | inr other =>
            {| entries := [(lit "error", JString (assignment_error other))];
               response_time := elapsed_late |}
        | inl why =>
            {| entries := [(lit "error", JString why)];
               response_time := elapsed_late |}
        end
      else
        {| entries :=
             [(lit "error", JString (lit "HTTP " ++ str_of_Z status_code))];
           response_time := elapsed |}
  | Raised why elapsed_late =>
      {| entries := [(lit "error", JString why)];
         response_time := elapsed_late |}
  end.

(** [f"{v}"] *)
Definition format (v : Json) : str :=
  match v with
  | JString s => s
  | _ => format_value v
  end.

(** The currency check, lines 125 to 129, on a message that is no
    string. *)
Definition check_currency (message : Json) (v : CopilotFixes.verdict)
  : exn + CopilotFixes.verdict :=
  match is_in CopilotFixes.pound message with
  | inl e => inl e
  | inr false => inr v
  | inr true =>
      match is_in CopilotFixes.garbled_pound message with
      | inl e => inl e
      | inr true =>
          inr (CopilotFixes.fail v (lit "Found garbled currency symbols"))
      | inr false =>
          match is_in [] message with
          | inl e => inl e
          | inr true =>
              inr (CopilotFixes.fail v
                     (lit "Found garbled currency symbols"))
          | inr false => inr v
          end
      end
  end.

(** Lines 105 to 137: [test_passed] and [issues] for one test case and
    the result of its request.  On a message that is no string the first
    turn of either [for] loop calls [lower()] on it, which it has not. *)
Definition judge (test_case : CopilotFixes.TestCase) (result : Result)
  : exn + CopilotFixes.verdict :=
  let v : CopilotFixes.verdict := (true, []) in
  match get (lit "error") (entries result) with
  | Some e => inr (CopilotFixes.fail v (lit "API Error: " ++ format e))
  | None =>
      let message :=
        match get (lit "message") (entries result) with
        | Some m => m
        | None => JString []
        end in
      match message with
      | JString msg =>
          let v := fold_left (CopilotFixes.check_expected lower msg)
                     (CopilotFixes.expected_contains test_case) v in
          let v := fold_left (CopilotFixes.check_forbidden lower msg)
                     (CopilotFixes.should_not_contain test_case) v in
          let v := CopilotFixes.check_currency msg v in
          inr (CopilotFixes.check_response_time format_2f
                 (response_time result) v)
      | _ =>
          match CopilotFixes.expected_contains test_case
                ++ CopilotFixes.should_not_contain test_case with
          | _ :: _ => inl AttributeError
          | [] =>
              match check_currency message v with
              | inl e => inl e
              | inr v =>
                  inr (CopilotFixes.check_response_time format_2f
                         (response_time result) v)
              end
          end
      end
  end.

(** Lines 133 and 139 to 150: what one turn of the loop adds to
    [results]. *)
Definition record (results : Results) (test_case : CopilotFixes.TestCase)
    (result : Result) (v : CopilotFixes.verdict) : Results :=
  {| total_tests := total_tests results;
     passed_tests := if fst v then S (passed_tests results)
                     else passed_tests results;
     failed_tests := if fst v then failed_tests results
                     else S (failed_tests results);
     errors := errors results;
     response_times :=
       match get (lit "error") (entries result) with
       | Some _ => response_times results
       | None => response_times results ++ [response_time result]
       end;
     test_details :=
       test_details results ++
       [ {| test_name := CopilotFixes.name test_case;
            message := CopilotFixes.message test_case;
            result := result;
            passed := fst v;
            issues := snd v |} ];
     stats := stats results |}.

(** The loop, from the request number [i] on; an exception ends it. *)
Fixpoint run_loop (i : nat) (cases : list CopilotFixes.TestCase)
    (results : Results) : exn + Results :=
  match cases with
  | [] => inr results
  | test_case :: rest =>
      let result :=
        test_chat_endpoint i (CopilotFixes.message test_case) in
      match judge test_case result with
      | inl e => inl e
      | inr v => run_loop (S i) rest (record results test_case result v)
      end
  end.

(** [if results['response_times']: ...] *)
Definition with_stats (results : Results) : Results :=
  match response_times results with
  | [] => results
  | t :: ts =>
      {| total_tests := total_tests results;
         passed_tests := passed_tests results;
         failed_tests := failed_tests results;
         errors := errors results;
         response_times := response_times results;
         test_details := test_details results;
         stats :=
           Some {| avg_response_time := average (t :: ts);
                   max_response_time := py_max t ts;
                   min_response_time := py_min t ts |} |}
  end.

(** [run_comprehensive_test] over a list of test cases.  The success rate
    printed in the summary divides by [total_tests]. *)
Definition run_tests (cases : list CopilotFixes.TestCase) : exn + Results :=
  match run_loop 0 cases
          {| total_tests := length cases;
             passed_tests := 0;
             failed_tests := 0;
             errors := [];
             response_times := [];
             test_details := [];
             stats := None |} with
  | inl e => inl e
  | inr results =>
      match cases with
      | [] => inl ZeroDivisionError
      | _ :: _ => inr (with_stats results)
      end
  end.

Definition run_comprehensive_test : exn + Results :=
  run_tests AICopilotTester.test_cases.

(** [main()]: the value it returns, which [exit] takes, or the exception
    that leaves it. *)
Definition main : exn + Z :=
  match run_comprehensive_test with
  | inl e => inl e
  | inr results =>
      if log_opens then
        inr (if (0 <? failed_tests results)%nat then 1%Z else 0%Z)
      else inl OSError
  end.

End Run.

End ComprehensiveTest.

(** ** scripts/run_ai_copilot_test.py: the requests and the summary *)

Module CopilotRunLoop.

Local Open Scope Q_scope.

Definition TEAM_ID : str := lit "7892155".

(** [response.ok] of the requests library: the status is not an error
    status, from 400 to 599. *)
Definition response_ok (status_code : Z) : bool :=
  negb ((400 <=? status_code)%Z && (status_code <? 600)%Z).

Record Payload := {
  message : str;
  teamId : str;
  sessionId : str
}.

Record Summary := {
  total : nat;
  success : nat;
  fail : nat
}.

Section Main.

(** A decoded JSON value, with [isinstance(data, dict)] and, for a
    dictionary, the truth of [data.get("success")]. *)
Variable json : Type.
Variable is_dict : json -> bool.
Variable get_success : json -> bool.

(** [uuid.uuid4().hex], as drawn for the request of a given index. *)
Variable uuid_hex : Z -> str.

(** What [response.json()] does: it returns a value, raises
    [json.JSONDecodeError], or raises something else. *)
Inductive Decoding :=
| Decoded (data : json)
| NotJson
| JsonRaised (why : str).

(** What one request comes to; [latency_ms] is the rounded latency. *)
Inductive Exchange :=
| Raised (why : str)
| Responded (status_code : Z) (latency_ms : Q) (body : Decoding).

Variable post : Payload -> Exchange.

(** A record of [results]; an entry that the script has not set is
    [None].  [response_json] set to [None] by the script is
    [Some None]. *)
Record Entry := {
  index : Z;
  category : str;
  prompt : str;
  payload : Payload;
  status_code : option Z;
  latency_ms : option Q;
  response_json : option (option json);
  error : option str
}.

(** The body of the loop of [main]: the record, and whether the request
    counts as a success. *)
Definition ask (idx : Z) (question : str * str) : Entry * bool :=
  let (category, prompt) := question in
  let payload :=
    {| message := prompt;
       teamId := TEAM_ID;
       sessionId := lit "autotest_" ++ uuid_hex idx |} in
  let record status latency data err :=
    {| index := idx; category := category; prompt := prompt;
       payload := payload; status_code := status; latency_ms := latency;
       response_json := data; error := err |} in
  match post payload with
  | Responded status latency body =>
      match body with
      | Decoded data =>
          if response_ok status && is_dict data && get_success data
          then (record (Some status) (Some latency) (Some (Some data)) None,
                true)
          else (record (Some status) (Some latency) (Some (Some data))
                  (Some (lit "Non-success response")), false)
      | NotJson =>
          (record (Some status) (Some latency) (Some None)
             (Some (lit "Non-success response")), false)
      | JsonRaised why =>
          (record (Some status) (Some latency) None (Some why), false)
      end
  | Raised why => (record None None None (Some why), false)
  end.

Definition count (summary : Summary) (succeeded : bool) : Summary :=
  {| total := total summary;
     success := if succeeded then S (success summary) else success summary;
     fail := if succeeded then fail summary else S (fail summary) |}.

(** The loop of [main] over the enumerated questions. *)
Definition run (questions : list (str * str)) : Summary * list Entry :=
  fold_left
    (fun '(summary, results) '(idx, question) =>
       let (record, succeeded) := ask idx question in
       (count summary succeeded, results ++ [record]))
    (CopilotRun.enumerate questions 1)
    ({| total := length questions; success := 0; fail := 0 |}, []).

(** [main()], up to the summary and the results it writes; the output
    file and the pauses are left out. *)
Definition main : CopilotRun.exn + Summary * list Entry :=
  match CopilotRun.build_questions with
  | inl e => inl e
  | inr questions => inr (run questions)
  end.

End Main.

Arguments Decoded {json} data.
Arguments NotJson {json}.
Arguments JsonRaised {json} why.
Arguments Raised {json} why.
Arguments Responded {json} status_code latency_ms body.
Arguments index {json} e.
Arguments category {json} e.
Arguments prompt {json} e.
Arguments payload {json} e.
Arguments status_code {json} e.
Arguments latency_ms {json} e.
Arguments response_json {json} e.
Arguments error {json} e.

End CopilotRunLoop.

(** ** Example data *)

Module Examples.

Import AnalysisEngine.

Definition mkPlayer (i cost pos c : Z) : Player :=
  {| id := i; now_cost := cost; position_class := pos; club := c |}.

Definition mkPick (i slot : Z) (override : option Z) : Pick :=
  {| element := i; position := slot; selling_price := override |}.

(** A player worth 6.0 and a pick of him bought back at 5.5. *)
Definition watkins : Player := mkPlayer 7 60 4 2.
Definition watkins_pick : Pick := mkPick 7 12 (Some 55%Z).

(** A pick whose element the catalog does not know. *)
Definition ghost_pick : Pick := mkPick 404 3 (Some 45%Z).

(** Fifteen players, two keepers, five defenders, five midfielders, three
    forwards, none dearer than 4.0; the second keeper costs 4.0. *)
Definition scenario_catalog : list Player :=
  [ mkPlayer 1 39 1 1;  mkPlayer 2 38 2 1;  mkPlayer 3 37 2 2;
    mkPlayer 4 39 2 3;  mkPlayer 5 36 2 4;  mkPlayer 6 38 3 5;
    mkPlayer 7 39 3 6;  mkPlayer 8 35 3 7;  mkPlayer 9 39 3 8;
    mkPlayer 10 38 4 9; mkPlayer 11 37 4 10; mkPlayer 12 40 1 11;
    mkPlayer 13 36 2 12; mkPlayer 14 35 3 13; mkPlayer 15 39 4 14 ].

(** The squad that picks player [i] in slot [i]. *)
Definition scenario_picks : list Pick :=
  map (fun i => mkPick i i None)
      [1; 2; 3; 4; 5; 6; 7; 8; 9; 10; 11; 12; 13; 14; 15]%Z.



(** A keeper outside the squad, and the catalog that has him too. *)
Definition flekken : Player := mkPlayer 16 45 1 15.
Definition wider_catalog : list Player := scenario_catalog ++ [flekken].

(** A policy: rank by price, any legal candidate improves, one per slot. *)
Definition by_price (_ : ResolvedPick) (p : Player) : Q :=
  Recommendation.price p.
Definition any_improves (_ : ResolvedPick) (_ : Player) : bool := true.
Definition plain_rationale (_ : ResolvedPick) (_ : Player) : str :=
  lit "easier fixtures".

(** The bench keeper of the scenario squad, resolved. *)
Definition bench_keeper : ResolvedPick :=
  fst (resolvePick wider_catalog (mkPick 12 12 None)).

(** Lower-casing of the ASCII letters, and a constant rendering of the
    response time: stand-ins for [str.lower] and [:.2f]. *)
Definition ascii_lower (s : str) : str :=
  map (fun c => if ((65 <=? c) && (c <=? 90))%N then (c + 32)%N else c) s.
Definition two_decimals (_ : Q) : str := lit "0.00".

(** The third test case of the harness and an answer with a garbled price:
    U+00C2 U+00A3, then 12.3m. *)
Definition price_test : CopilotFixes.TestCase :=
  {| CopilotFixes.name := lit "Player price test";
     CopilotFixes.message := lit "What are my players' prices?";
     CopilotFixes.expected_contains := [lit "help"];
     CopilotFixes.should_not_contain := [CopilotFixes.garbled_pound] |}.

Definition garbled_answer : CopilotFixes.ChatResult :=
  {| CopilotFixes.error := None;
     CopilotFixes.answer :=
       Some (lit "I can help: Haaland costs "
             ++ CopilotFixes.garbled_pound ++ lit "12.3m");
     CopilotFixes.response_time := (12 # 10)%Q |}.

Definition no_upgrades (_ _ _ : list ResolvedPick) (_ : list Player)
    (_ : number) (_ : Z) : list Upgrade * list Upgrade := ([], []).

Definition always_low (_ : list ResolvedPick) : str := lit "low".

(** A server that answers 503 to everything, after 0.2 s. *)
Definition server_down (_ : str) : AICopilotTester.Exchange :=
  AICopilotTester.Responded 503 (AICopilotTester.Unusable (lit "no body"))
    (2 # 10) (2 # 10).

(** A server that answers every request, after 1.2 s, with the same
    advice; one that answers with a list in the place of the text. *)
Definition advising (_ : nat) (_ : str) : ComprehensiveTest.Reply :=
  ComprehensiveTest.Responded 200
    (inr (ComprehensiveTest.JObject
            [(lit "message",
              ComprehensiveTest.JString
                (lit "I can help: your defensive security is fine."))]))
    (12 # 10) (13 # 10).
Definition listing (_ : nat) (_ : str) : ComprehensiveTest.Reply :=
  ComprehensiveTest.Responded 200
    (inr (ComprehensiveTest.JObject
            [(lit "message",
              ComprehensiveTest.JArray
                [ComprehensiveTest.JString (lit "help")])]))
    (12 # 10) (13 # 10).
Definition shown (_ : ComprehensiveTest.Json) : str := lit "<value>".
Definition exact_average (xs : list Q) : Q :=
  (fold_left Qplus xs 0 / inject_Z (Z.of_nat (length xs)))%Q.
Definition advising_results : ComprehensiveTest.Results :=
  match ComprehensiveTest.run_tests ascii_lower two_decimals shown shown
          exact_average advising AICopilotTester.test_cases with
  | inr results => results
  | inl _ =>
      {| ComprehensiveTest.total_tests := 0;
         ComprehensiveTest.passed_tests := 0;
         ComprehensiveTest.failed_tests := 0;
         ComprehensiveTest.errors := [];
         ComprehensiveTest.response_times := [];
         ComprehensiveTest.test_details := [];
         ComprehensiveTest.stats := None |}
  end.
Definition advising_stats : ComprehensiveTest.Stats :=
  match ComprehensiveTest.stats advising_results with
  | Some s => s
  | None =>
      {| ComprehensiveTest.avg_response_time := 0;
         ComprehensiveTest.max_response_time := 0;
         ComprehensiveTest.min_response_time := 0 |}
  end.

(** An answer that passes the price test: it offers help and names no
    price. *)
Definition helpful_answer : CopilotFixes.ChatResult :=
  {| CopilotFixes.error := None;
     CopilotFixes.answer := Some (lit "I can help with your squad.");
     CopilotFixes.response_time := (12 # 10)%Q |}.

(** A server that refuses every connection of the question run; decoded
    bodies are taken to be booleans. *)
Definition refusing (_ : CopilotRunLoop.Payload)
  : CopilotRunLoop.Exchange bool :=
  CopilotRunLoop.Raised (lit "Connection refused").
Definition zero_hex (_ : Z) : str := lit "00000000000000000000000000000000".
Definition two_questions : list (str * str) :=
  [ (lit "chip_strategy", lit "Is Gameweek 8 a good time for my wildcard?");
    (lit "budgeting", lit "Should I chase team value rises aggressively right now?") ].


(** An engine file in the state the script repairs: the three passages
    with their damaged line ends, between other text. *)
Definition corrupted_engine : str :=
  lit "// engine, before " ++ PatchScript.old ++ lit " // between "
  ++ PatchScript.old2 ++ lit " " ++ PatchScript.old3 ++ lit " // after".

(** The analysis of the scenario squad. *)
Definition some_result : AnalysisResult :=
  fst (compute no_upgrades always_low scenario_catalog scenario_picks 2 1%Z
         (lit "2025-10-03T17:30:00Z")).

End Examples.


(** ** Auxiliary notions used by the statements *)

(** The sum of a list of numbers. *)
Definition Qsum (l : list Q) : Q := fold_right Qplus 0%Q l.


(** A nonempty end of [a] that is a beginning of [b]. *)
Fixpoint overlaps (a b : str) : bool :=
  match a with
  | [] => false
  | _ :: a' => startswith a b || overlaps a' b
  end.

(** [pat] and [new] share no border: neither lies in the other, and no
    nonempty end of one is a beginning of the other. *)
Definition border_free (pat new : str) : bool :=
  negb (contains pat new) && negb (contains new pat)
  && negb (overlaps new pat) && negb (overlaps pat new).

(** The result [r] with the response time [t] in the place of its own. *)
Definition at_time (r : CopilotFixes.ChatResult) (t : Q)
  : CopilotFixes.ChatResult :=
  {| CopilotFixes.error := CopilotFixes.error r;
     CopilotFixes.answer := CopilotFixes.answer r;
     CopilotFixes.response_time := t |}.

(** The test cases of a run with the results of their requests, the first
    request being number [i]. *)
Fixpoint asked (assignment_error : ComprehensiveTest.Json -> str)
    (post : nat -> str -> ComprehensiveTest.Reply) (i : nat)
    (cases : list CopilotFixes.TestCase)
  : list (CopilotFixes.TestCase * ComprehensiveTest.Result) :=
  match cases with
  | [] => []
  | c :: rest =>
      (c, ComprehensiveTest.test_chat_endpoint assignment_error post i
            (CopilotFixes.message c))
      :: asked assignment_error post (S i) rest
  end.

(** The harness passes the test case on the result; it raises on it. *)
Definition passes (lower : str -> str) (format_2f : Q -> str)
    (format_value : ComprehensiveTest.Json -> str)
    (cr : CopilotFixes.TestCase * ComprehensiveTest.Result) : bool :=
  match ComprehensiveTest.judge lower format_2f format_value
          (fst cr) (snd cr) with
  | inr (true, _) => true
  | _ => false
  end.

Definition raises (lower : str -> str) (format_2f : Q -> str)
    (format_value : ComprehensiveTest.Json -> str)
    (cr : CopilotFixes.TestCase * ComprehensiveTest.Result) : bool :=
  match ComprehensiveTest.judge lower format_2f format_value
          (fst cr) (snd cr) with
  | inl _ => true
  | inr _ => false
  end.

(** The result has no ["error"] entry. *)
Definition without_error
    (cr : CopilotFixes.TestCase * ComprehensiveTest.Result) : bool :=
  match ComprehensiveTest.get (lit "error")
          (ComprehensiveTest.entries (snd cr)) with
  | Some _ => false
  | None => true
  end.

(** The result has an ["error"] entry, or no ["message"] entry, or one
    that is a string. *)
Definition textual (r : ComprehensiveTest.Result) : bool :=
  match ComprehensiveTest.get (lit "error") (ComprehensiveTest.entries r) with
  | Some _ => true
  | None =>
      match ComprehensiveTest.get (lit "message")
              (ComprehensiveTest.entries r) with
      | Some (ComprehensiveTest.JString _) => true
      | Some _ => false
      | None => true
      end
  end.

(** Whether a record of the question run has an ["error"] entry. *)
Definition has_error {json : Type} (e : CopilotRunLoop.Entry json) : bool :=
  match CopilotRunLoop.error e with
  | Some _ => true
  | None => false
  end.


(** The text the script holds when it reaches [write_text]. *)
Definition patched (content : str) : str :=
  replace PatchScript.old2 PatchScript.new2
    (replace PatchScript.old PatchScript.new content).


(** * Properties *)

(** ** Substrings and replacement *)

Lemma startswith_spec (p t : str) :
  startswith p t = true <-> exists b, t = p ++ b.
Proof.
  revert t; induction p as [|x p IH]; intros t; simpl.
  - split; [intros _; now exists t | reflexivity].
  - destruct t as [|y t].
    + split; [discriminate | intros [b H]; discriminate].
    + rewrite andb_true_iff, N.eqb_eq, IH. split.
      * intros [-> [b ->]]. now exists b.
      * intros [b H]. injection H as -> ->. split; [reflexivity | now exists b].
Qed.

Lemma contains_spec (p t : str) : contains p t = true <-> occurs p t.
Proof.
  unfold occurs. induction t as [|c t IH]; simpl.
  - rewrite orb_false_r, startswith_spec. split.
    + intros [b H]. now exists [], b.
    + intros [a [b H]]. destruct a as [|y a]; [now exists b | discriminate].
  - rewrite orb_true_iff, startswith_spec, IH. split.
    + intros [[b H] | [a [b H]]].
      * now exists [], b.
      * exists (c :: a), b. simpl. now rewrite H.
    + intros [a [b H]]. destruct a as [|y a].
      * left. now exists b.
      * right. injection H as _ H. now exists a, b.
Qed.

Lemma contains_false (p t : str) : contains p t = false <-> ~ occurs p t.
Proof.
  rewrite <- contains_spec. destruct (contains p t); split; congruence.
Qed.

Lemma occurs_app_l (p a b : str) : occurs p a -> occurs p (a ++ b).
Proof.
  intros [x [y ->]]. exists x, (y ++ b). now rewrite <- !app_assoc.
Qed.

Lemma occurs_app_r (p a b : str) : occurs p b -> occurs p (a ++ b).
Proof.
  intros [x [y ->]]. exists (a ++ x), y. now rewrite <- app_assoc.
Qed.

Lemma overlaps_spec (a b : str) :
  overlaps a b = true <->
  exists s a' b', s <> [] /\ a = a' ++ s /\ b = s ++ b'.
Proof.
  induction a as [|c a IH]; cbn [overlaps].
  - split; [discriminate|].
    intros (s & a' & b' & Hs & Ha & _).
    destruct a'; destruct s; simpl in Ha; congruence.
  - rewrite orb_true_iff, startswith_spec, IH. split.
    + intros [[b' H] | (s & a' & b' & Hs & -> & ->)].
      * exists (c :: a), [], b'. repeat split; [discriminate | exact H].
      * exists s, (c :: a'), b'. now repeat split.
    + intros (s & a' & b' & Hs & Ha & ->). destruct a' as [|y a'].
      * left. simpl in Ha. subst s. now exists b'.
      * right. injection Ha as _ ->. now exists s, a', b'.
Qed.

(** Where an occurrence of [p] in [a ++ b] can lie. *)
Lemma occurs_app_cases (p a b : str) :
  occurs p (a ++ b) ->
  occurs p a \/ occurs p b \/
  exists p1 p2 a' b',
    p1 <> [] /\ p2 <> [] /\ p = p1 ++ p2 /\ a = a' ++ p1 /\ b = p2 ++ b'.
Proof.
  intros [x [y H]].
  apply app_eq_app in H. destruct H as [l [[Ha Hb] | [Hx Hb]]].
  - apply app_eq_app in Hb.
    destruct Hb as [l2 [[Hp Hb] | [Hl Hy]]].
    + destruct l as [|c l].
      * right; left. simpl in Hp. subst. now exists [], y.
      * destruct l2 as [|c2 l2].
        -- left. rewrite app_nil_r in Hp. subst. exists x, [].
           now rewrite app_nil_r.
        -- right; right. exists (c :: l), (c2 :: l2), x, y.
           repeat split; (discriminate || assumption).
    + left. subst. now exists x, l2.
  - right; left. subst. now exists l, y.
Qed.

Lemma replace_go_skip (old new : str) (k : nat) (t : str) :
  replace_go old new k t = replace_go old new 0 (skipn k t).
Proof.
  revert k; induction t as [|c t IH]; intros k.
  - now destruct k.
  - destruct k as [|k]; [reflexivity|]. simpl. apply IH.
Qed.

Lemma skipn_length_app (a b : str) : skipn (length a) (a ++ b) = b.
Proof. induction a as [|c a IH]; [reflexivity | exact IH]. Qed.

Lemma replace_hit (old new rest : str) :
  old <> [] -> replace old new (old ++ rest) = new ++ replace old new rest.
Proof.
  intros Hne. destruct old as [|x o]; [contradiction|].
  unfold replace.
  assert (Hs : startswith (x :: o) ((x :: o) ++ rest) = true)
    by (apply startswith_spec; now exists rest).
  change ((x :: o) ++ rest) with (x :: (o ++ rest)) in *.
  cbn [replace_go]. rewrite Hs. f_equal.
  rewrite replace_go_skip. cbn [length]. rewrite Nat.sub_1_r. cbn [Nat.pred].
  now rewrite skipn_length_app.
Qed.

Lemma replace_miss (old new : str) (c : char) (t : str) :
  old <> [] -> startswith old (c :: t) = false ->
  replace old new (c :: t) = c :: replace old new t.
Proof.
  intros Hne Hs. destruct old as [|x o]; [contradiction|].
  unfold replace. cbn [replace_go]. now rewrite Hs.
Qed.

Lemma replace_nil (old new : str) : old <> [] -> replace old new [] = [].
Proof. intros Hne. destruct old; [contradiction | reflexivity]. Qed.

(** Without an occurrence nothing changes. *)
Lemma replace_absent (old new t : str) :
  old <> [] -> ~ occurs old t -> replace old new t = t.
Proof.
  intros Hne. induction t as [|c t IH]; intros Hno.
  - now apply replace_nil.
  - rewrite replace_miss; trivial.
    + f_equal. apply IH. intros [a [b ->]]. apply Hno.
      now exists (c :: a), b.
    + destruct (startswith old (c :: t)) eqn:E; [|reflexivity].
      exfalso. apply Hno. apply startswith_spec in E. destruct E as [b E].
      now exists [], b.
Qed.

(** With an occurrence, the text splits around the first one replaced. *)
Lemma replace_split (old new t : str) :
  old <> [] -> occurs old t ->
  exists u rest,
    t = u ++ old ++ rest /\
    replace old new t = u ++ new ++ replace old new rest.
Proof.
  intros Hne. induction t as [|c t IH]; intros Hocc.
  - destruct Hocc as [a [b H]].
    destruct a; destruct old; simpl in H; congruence.
  - destruct (startswith old (c :: t)) eqn:E.
    + apply startswith_spec in E. destruct E as [rest E].
      exists [], rest. rewrite E. split; [reflexivity|]. now apply replace_hit.
    + assert (Ht : occurs old t).
      { destruct Hocc as [a [b H]]. destruct a as [|y a].
        - assert (startswith old (c :: t) = true)
            by (apply startswith_spec; now exists b).
          congruence.
        - injection H as _ H. now exists a, b. }
      destruct (IH Ht) as (u & rest & Hu & Hr).
      exists (c :: u), rest. split.
      * simpl. now rewrite Hu.
      * rewrite replace_miss; trivial. simpl. now rewrite Hr.
Qed.

(** Replacing [old] by a [new] that shares no border with [pat] creates no
    occurrence of [pat]. *)
Lemma replace_creates_no_occurrence (pat old new : str) :
  old <> [] -> border_free pat new = true ->
  forall t, occurs pat (replace old new t) -> occurs pat t.
Proof.
  intros Hne Hbf.
  unfold border_free in Hbf. rewrite !andb_true_iff, !negb_true_iff in Hbf.
  destruct Hbf as [[[Hpn Hnp] Hov1] Hov2].
  intros t. remember (length t) as n eqn:Hn. revert t Hn.
  induction n as [n IH] using lt_wf_ind. intros t Hn Hocc.
  destruct (contains old t) eqn:Hc.
  - apply contains_spec in Hc.
    destruct (replace_split old new t Hne Hc) as (u & rest & Ht & Hr).
    rewrite Hr in Hocc. rewrite Ht.
    apply occurs_app_cases in Hocc.
    destruct Hocc as [Hu | [Hnr | Hov]].
    + now apply occurs_app_l.
    + apply occurs_app_cases in Hnr. destruct Hnr as [Hin | [Hrest | Hov]].
      * apply contains_spec in Hin. congruence.
      * apply occurs_app_r, occurs_app_r.
        apply (IH (length rest)); trivial.
        subst n t. rewrite !length_app.
        destruct old; [contradiction | simpl; lia].
      * exfalso. destruct Hov as (p1 & p2 & a' & b' & H1 & H2 & Hp & Ha & Hb).
        assert (overlaps new pat = true); [|congruence].
        apply overlaps_spec. now exists p1, a', p2.
    + exfalso. destruct Hov as (p1 & p2 & a' & b' & H1 & H2 & Hp & Ha & Hb).
      apply app_eq_app in Hb. destruct Hb as [l [[Hnew Hb'] | [Hp2 Hrl]]].
      * assert (overlaps pat new = true); [|congruence].
        apply overlaps_spec. now exists p2, p1, l.
      * assert (contains new pat = true); [|congruence].
        apply contains_spec. exists p1, l. now rewrite Hp, Hp2.
  - apply contains_false in Hc. now rewrite replace_absent in Hocc.
Qed.

(** Replacing a pattern by itself is the identity. *)
Lemma replace_same (p t : str) : p <> [] -> replace p p t = t.
Proof.
  intros Hne. remember (length t) as n eqn:Hn. revert t Hn.
  induction n as [n IH] using lt_wf_ind. intros t Hn.
  destruct (contains p t) eqn:Hc.
  - apply contains_spec in Hc.
    destruct (replace_split p p t Hne Hc) as (u & rest & Ht & Hr).
    rewrite Hr, Ht. do 2 f_equal. apply (IH (length rest)); trivial.
    subst n t. rewrite !length_app. destruct p; [contradiction | simpl; lia].
  - apply contains_false in Hc. now apply replace_absent.
Qed.

(** ** The patch script *)

Section PatchScriptFacts.

Import PatchScript.

Lemma old_nonempty : old <> [].
Proof. intros H. apply (f_equal (@length char)) in H. vm_compute in H. discriminate. Qed.

Lemma old2_nonempty : old2 <> [].
Proof. intros H. apply (f_equal (@length char)) in H. vm_compute in H. discriminate. Qed.

Lemma old3_nonempty : old3 <> [].
Proof. intros H. apply (f_equal (@length char)) in H. vm_compute in H. discriminate. Qed.

Lemma old2_new_border_free : border_free old2 new = true.
Proof. vm_compute. reflexivity. Qed.

Lemma old3_new_border_free : border_free old3 new = true.
Proof. vm_compute. reflexivity. Qed.

Lemma old3_new2_border_free : border_free old3 new2 = true.
Proof. vm_compute. reflexivity. Qed.

(** The run of the script, check by check. *)
Lemma fix_analysis_block_run (content : str) :
  fix_analysis_block (initially content) =
  if negb (contains old content) then
    (inl (SystemExit (lit "pattern not found for currentSquad")),
     initially content)
  else if negb (contains old2 (replace old new content)) then
    (inl (SystemExit (lit "pattern not found for benchPlayers")),
     initially content)
  else if negb (contains old3 (patched content)) then
    (inl (SystemExit (lit "pattern not found for maxSellValue")),
     initially content)
  else
    (inr tt, {| file := Some (patched content);
                written := [patched content] |}).
Proof.
  unfold patched.
  cbv [fix_analysis_block bind read_text require raise ret write_text
       initially file written app].
  destruct (contains old content); cbv [negb]; [|reflexivity].
  destruct (contains old2 (replace old new content)); cbv [negb]; [|reflexivity].
  destruct (contains old3 (replace old2 new2 (replace old new content)));
    cbv [negb]; [|reflexivity].
  now rewrite (replace_same old3 _ old3_nonempty).
Qed.

Lemma old2_survives (content : str) :
  occurs old2 (replace old new content) -> occurs old2 content.
Proof.
  apply replace_creates_no_occurrence;
    [exact old_nonempty | exact old2_new_border_free].
Qed.

Lemma old3_survives (content : str) :
  occurs old3 (patched content) -> occurs old3 content.
Proof.
  intros H. unfold patched in H.
  apply replace_creates_no_occurrence in H;
    [| exact old2_nonempty | exact old3_new2_border_free].
  apply replace_creates_no_occurrence in H;
    [| exact old_nonempty | exact old3_new_border_free].
  exact H.
Qed.

End PatchScriptFacts.

(** C9.  The patch script is atomic on error.  Whatever the file holds, if
    one of the three patterns [old], [old2], [old3] does not occur in it,
    the script ends in [SystemExit] and the disk is as it was: the file is
    unchanged and nothing was written.  Conversely, if anything was written,
    the script returned normally, the three patterns occur in the file, and
    the single text written is the one with [old] and [old2] replaced. *)
Theorem fix_analysis_block_atomic (content : str) :
  ((~ occurs PatchScript.old content \/ ~ occurs PatchScript.old2 content
    \/ ~ occurs PatchScript.old3 content) ->
   exists msg,
     PatchScript.fix_analysis_block (PatchScript.initially content) =
     (inl (PatchScript.SystemExit msg), PatchScript.initially content))
  /\
  (PatchScript.written
     (snd (PatchScript.fix_analysis_block (PatchScript.initially content)))
   <> [] ->
   occurs PatchScript.old content /\ occurs PatchScript.old2 content
   /\ occurs PatchScript.old3 content
   /\ PatchScript.fix_analysis_block (PatchScript.initially content) =
      (inr tt, {| PatchScript.file := Some (patched content);
                  PatchScript.written := [patched content] |})).
Proof.
  rewrite fix_analysis_block_run.
  destruct (contains PatchScript.old content) eqn:H1; cbv [negb].
  2:{ split; [intros _; eexists; reflexivity | intros H; now elim H]. }
  destruct (contains PatchScript.old2
              (replace PatchScript.old PatchScript.new content)) eqn:H2;
    cbv [negb].
  2:{ split; [intros _; eexists; reflexivity | intros H; now elim H]. }
  destruct (contains PatchScript.old3 (patched content)) eqn:H3; cbv [negb].
  2:{ split; [intros _; eexists; reflexivity | intros H; now elim H]. }
  apply contains_spec in H1, H2, H3.
  apply old2_survives in H2. apply old3_survives in H3.
  split.
  - intros [H | [H | H]]; contradiction.
  - intros _. repeat split; assumption.
Qed.

Lemma fix_analysis_block_atomic_witness :
  let content := PatchScript.old ++ lit " " ++ PatchScript.old3 in
  ~ occurs PatchScript.old2 content /\
  exists msg,
    PatchScript.fix_analysis_block (PatchScript.initially content) =
    (inl (PatchScript.SystemExit msg), PatchScript.initially content).
Proof.
  intros content.
  assert (H : ~ occurs PatchScript.old2 content)
    by (apply contains_false; vm_compute; reflexivity).
  split; [exact H|].
  apply (proj1 (fix_analysis_block_atomic content)). right; left. exact H.
Defined.

(** ** The analysis block *)

Section AnalysisFacts.

Import AnalysisEngine.
Local Open Scope Q_scope.

Lemma mapLogging_fst {A B : Type} (f : A -> B * list str) (xs : list A) :
  fst (mapLogging f xs) = map (fun x => fst (f x)) xs.
Proof.
  induction xs as [|x xs IH]; [reflexivity|].
  simpl. destruct (f x) as [y w], (mapLogging f xs) as [ys ws].
  simpl in *. now rewrite IH.
Qed.

Lemma mapLogging_snd {A B : Type} (f : A -> B * list str) (xs : list A) :
  snd (mapLogging f xs) = flat_map (fun x => snd (f x)) xs.
Proof.
  induction xs as [|x xs IH]; [reflexivity|].
  simpl. destruct (f x) as [y w], (mapLogging f xs) as [ys ws].
  simpl in *. now rewrite IH.
Qed.

Lemma currentSquad_fst (allPlayers : list Player) (picks : list Pick) :
  fst (currentSquad allPlayers picks) =
  map (fun pk => fst (resolvePick allPlayers pk)) picks.
Proof. apply mapLogging_fst. Qed.

Lemma fold_sell_sum (squad : list ResolvedPick) (a : Q) :
  fold_left (fun acc p => acc + sellPrice p) squad a
  == a + Qsum (map sellPrice squad).
Proof.
  revert a; induction squad as [|p squad IH]; intros a; simpl.
  - ring.
  - rewrite IH. ring.
Qed.

Lemma teamValueOf_sum (squad : list ResolvedPick) :
  teamValueOf squad == Qsum (map sellPrice squad).
Proof. unfold teamValueOf. rewrite fold_sell_sum. ring. Qed.

Lemma Qsum_cons (x : Q) (l : list Q) : Qsum (x :: l) = x + Qsum l.
Proof. reflexivity. Qed.

Lemma Qsum_app (a b : list Q) : Qsum (a ++ b) == Qsum a + Qsum b.
Proof.
  induction a as [|x a IH]; simpl; [ring | rewrite IH; ring].
Qed.


Lemma Qmax_choice (a x : Q) : Qmax a x = a \/ Qmax a x = x.
Proof.
  unfold Qmax, GenericMinMax.gmax. destruct (a ?= x); auto.
Qed.

Lemma fold_num_max (xs : list Q) (a : Q) :
  exists m,
    fold_left num_max xs (Num a) = Num m /\ (m = a \/ In m xs) /\
    a <= m /\ forall x, In x xs -> x <= m.
Proof.
  revert a; induction xs as [|x xs IH]; intros a; simpl.
  - exists a. repeat split; [now left | apply Qle_refl | contradiction].
  - destruct (IH (Qmax a x)) as (m & Hm & Hin & Hle & Hall).
    exists m. repeat split; trivial.
    + destruct Hin as [-> | Hin]; [|now right; right].
      destruct (Qmax_choice a x) as [-> | ->]; [now left | now right; left].
    + apply Qle_trans with (Qmax a x); [apply Q.le_max_l | exact Hle].
    + intros y [<- | Hy]; [|now apply Hall].
      apply Qle_trans with (Qmax a x); [apply Q.le_max_r | exact Hle].
Qed.

(** [Math.max] of at least one number is the greatest of them. *)
Lemma Math_max_nonempty (xs : list Q) :
  xs <> [] ->
  exists m, Math_max xs = Num m /\ In m xs /\ forall x, In x xs -> x <= m.
Proof.
  destruct xs as [|x xs]; [congruence|]. intros _.
  unfold Math_max. simpl.
  destruct (fold_num_max xs x) as (m & Hm & Hin & Hle & Hall).
  exists m. repeat split; trivial.
  - destruct Hin as [-> | Hin]; [now left | now right].
  - intros y [<- | Hy]; [exact Hle | now apply Hall].
Qed.

Lemma findPlayer_none (allPlayers : list Player) (pk : Pick) :
  (forall p, In p allPlayers -> id p <> element pk) ->
  findPlayer allPlayers pk = None.
Proof.
  intros H. unfold findPlayer.
  destruct (find _ allPlayers) as [p|] eqn:E; [|reflexivity].
  apply find_some in E. destruct E as [Hin Heq].
  apply Z.eqb_eq in Heq. now elim (H p Hin).
Qed.

End AnalysisFacts.

(** ** Printing integers *)

Lemma lit_inj (s1 s2 : string) : lit s1 = lit s2 -> s1 = s2.
Proof.
  unfold lit. intros H.
  rewrite <- (string_of_list_ascii_of_string s1),
          <- (string_of_list_ascii_of_string s2).
  f_equal.
  revert H. generalize (list_ascii_of_string s1) (list_ascii_of_string s2).
  induction l as [|a l IH]; intros [|b l']; simpl; try discriminate; trivial.
  intros H. injection H as Hab Hl.
  apply (f_equal ascii_of_N) in Hab. rewrite !ascii_N_embedding in Hab.
  subst b. f_equal. now apply IH.
Qed.

Lemma to_int_not_nil (n : Z) :
  Z.to_int n <> Decimal.Pos Decimal.Nil /\ Z.to_int n <> Decimal.Neg Decimal.Nil.
Proof.
  destruct n as [|p|p]; simpl; split; try discriminate;
    intros H; injection H as H; now apply Unsigned.to_uint_nonnil in H.
Qed.

Lemma str_of_Z_inj (n m : Z) : str_of_Z n = str_of_Z m -> n = m.
Proof.
  unfold str_of_Z. intros H. apply lit_inj in H.
  apply (f_equal NilZero.int_of_string) in H.
  destruct (to_int_not_nil n) as [Hn1 Hn2], (to_int_not_nil m) as [Hm1 Hm2].
  rewrite !NilZero.isi in H by assumption.
  injection H as H. now apply DecimalZ.to_int_inj.
Qed.

(** ** The claims on the analysis block *)

(** C1.  The sell price of a resolved pick follows the resolution order.
    Prices are fixed-point counts of tenths, read as amounts by [amount]:
    the sell price is the selling-price override when the override is
    present and non-zero, whatever the player's current price; otherwise
    the player's current price when the catalog has the player; otherwise
    zero. *)
Theorem sell_price_resolution_order
    (allPlayers : list AnalysisEngine.Player) (pk : AnalysisEngine.Pick) :
  let r := fst (AnalysisEngine.resolvePick allPlayers pk) in
  (forall v, AnalysisEngine.selling_price pk = Some v -> v <> 0%Z ->
     AnalysisEngine.sellPrice r = amount v)
  /\
  (forall p,
     AnalysisEngine.selling_price pk = None \/
     AnalysisEngine.selling_price pk = Some 0%Z ->
     AnalysisEngine.findPlayer allPlayers pk = Some p ->
     AnalysisEngine.sellPrice r = Recommendation.price p)
  /\
  (AnalysisEngine.selling_price pk = None \/
   AnalysisEngine.selling_price pk = Some 0%Z ->
   AnalysisEngine.findPlayer allPlayers pk = None ->
   AnalysisEngine.sellPrice r == 0).
Proof.
  cbn [fst AnalysisEngine.resolvePick AnalysisEngine.sellPrice].
  unfold AnalysisEngine.computeSellPrice, AnalysisEngine.js_or,
    Recommendation.price, amount.
  split; [|split].
  - intros v Hv Hnz. rewrite Hv. cbn [AnalysisEngine.truthy].
    apply Z.eqb_neq in Hnz. now rewrite Hnz.
  - intros p [Hs | Hs] Hp; rewrite Hs, Hp; reflexivity.
  - intros [Hs | Hs] Hp; rewrite Hs, Hp; reflexivity.
Qed.

Lemma sell_price_resolution_order_witness :
  AnalysisEngine.sellPrice
    (fst (AnalysisEngine.resolvePick [Examples.watkins] Examples.watkins_pick))
  = amount 55.
Proof.
  apply (proj1 (sell_price_resolution_order
                  [Examples.watkins] Examples.watkins_pick) 55%Z);
    [reflexivity | discriminate].
Defined.

(** C2.  When no resolved pick has a player, the calculator returns the
    minimal result: the inputs, the team value, [maxPlayerPrice] equal to
    [bank], two empty recommendation lists and the label
    ["insufficient-data"], whatever the recommendation generator and the
    risk assessor are; so it is for an empty list of picks. *)
Theorem empty_usable_squad_short_circuits
    (generate : list AnalysisEngine.ResolvedPick ->
                list AnalysisEngine.ResolvedPick ->
                list AnalysisEngine.ResolvedPick ->
                list AnalysisEngine.Player -> AnalysisEngine.number -> Z ->
                list AnalysisEngine.Upgrade * list AnalysisEngine.Upgrade)
    (assess : list AnalysisEngine.ResolvedPick -> str)
    (allPlayers : list AnalysisEngine.Player)
    (picks : list AnalysisEngine.Pick)
    (bank : Q) (freeTransfers : Z) (nextDeadline : str) :
  (AnalysisEngine.filteredSquad
     (fst (AnalysisEngine.currentSquad allPlayers picks)) = [] ->
   fst (AnalysisEngine.compute generate assess allPlayers picks bank
          freeTransfers nextDeadline) =
   {| AnalysisEngine.bank := bank;
      AnalysisEngine.teamValue :=
        AnalysisEngine.teamValueOf
          (fst (AnalysisEngine.currentSquad allPlayers picks));
      AnalysisEngine.freeTransfers := freeTransfers;
      AnalysisEngine.nextDeadline := nextDeadline;
      AnalysisEngine.maxPlayerPrice := AnalysisEngine.Num bank;
      AnalysisEngine.benchUpgrades := [];
      AnalysisEngine.starterTargets := [];
      AnalysisEngine.riskAssessment := lit "insufficient-data" |})
  /\
  fst (AnalysisEngine.compute generate assess allPlayers [] bank
         freeTransfers nextDeadline) =
  {| AnalysisEngine.bank := bank;
     AnalysisEngine.teamValue := 0;
     AnalysisEngine.freeTransfers := freeTransfers;
     AnalysisEngine.nextDeadline := nextDeadline;
     AnalysisEngine.maxPlayerPrice := AnalysisEngine.Num bank;
     AnalysisEngine.benchUpgrades := [];
     AnalysisEngine.starterTargets := [];
     AnalysisEngine.riskAssessment := lit "insufficient-data" |}.
Proof.
  split; [|reflexivity].
  unfold AnalysisEngine.compute.
  destruct (AnalysisEngine.currentSquad allPlayers picks) as [squad warnings].
  cbn [fst]. intros ->. reflexivity.
Qed.

Lemma empty_usable_squad_short_circuits_witness :
  AnalysisEngine.filteredSquad
    (fst (AnalysisEngine.currentSquad [] [Examples.ghost_pick])) = [] /\
  fst (AnalysisEngine.compute Examples.no_upgrades Examples.always_low
         [] [Examples.ghost_pick] (5 # 10) 1%Z (lit "2025-10-03T17:30:00Z")) =
  {| AnalysisEngine.bank := 5 # 10;
     AnalysisEngine.teamValue :=
       AnalysisEngine.teamValueOf
         (fst (AnalysisEngine.currentSquad [] [Examples.ghost_pick]));
     AnalysisEngine.freeTransfers := 1%Z;
     AnalysisEngine.nextDeadline := lit "2025-10-03T17:30:00Z";
     AnalysisEngine.maxPlayerPrice := AnalysisEngine.Num (5 # 10);
     AnalysisEngine.benchUpgrades := [];
     AnalysisEngine.starterTargets := [];
     AnalysisEngine.riskAssessment := lit "insufficient-data" |}.
Proof.
  split; [reflexivity|].
  apply (proj1 (empty_usable_squad_short_circuits
                  Examples.no_upgrades Examples.always_low
                  [] [Examples.ghost_pick] (5 # 10) 1%Z
                  (lit "2025-10-03T17:30:00Z"))).
  reflexivity.
Defined.

(** C3.  For a non-empty usable squad, [maxPlayerPrice] is [bank] plus the
    greatest sell price of the usable squad: a sell price of the squad that
    no other exceeds.  In particular, with 15 resolvable picks, a bank of
    2.0 and a greatest sell price of 4.0, [maxPlayerPrice] is 6.0. *)
Theorem max_player_price_is_bank_plus_max_sell
    (generate : list AnalysisEngine.ResolvedPick ->
                list AnalysisEngine.ResolvedPick ->
                list AnalysisEngine.ResolvedPick ->
                list AnalysisEngine.Player -> AnalysisEngine.number -> Z ->
                list AnalysisEngine.Upgrade * list AnalysisEngine.Upgrade)
    (assess : list AnalysisEngine.ResolvedPick -> str)
    (allPlayers : list AnalysisEngine.Player)
    (picks : list AnalysisEngine.Pick)
    (bank : Q) (freeTransfers : Z) (nextDeadline : str) :
  let filtered :=
    AnalysisEngine.filteredSquad
      (fst (AnalysisEngine.currentSquad allPlayers picks)) in
  let result :=
    fst (AnalysisEngine.compute generate assess allPlayers picks bank
           freeTransfers nextDeadline) in
  (filtered <> [] ->
   exists m,
     In m (map AnalysisEngine.sellPrice filtered) /\
     (forall p, In p filtered -> AnalysisEngine.sellPrice p <= m) /\
     AnalysisEngine.maxPlayerPrice result = AnalysisEngine.Num (bank + m))
  /\
  (length filtered = 15%nat -> bank == 2 ->
   (exists p, In p filtered /\ AnalysisEngine.sellPrice p == 4) ->
   (forall p, In p filtered -> AnalysisEngine.sellPrice p <= 4) ->
   exists q,
     AnalysisEngine.maxPlayerPrice result = AnalysisEngine.Num q /\ q == 6).
Proof.
  intros filtered result.
  assert (General : filtered <> [] ->
    exists m,
      In m (map AnalysisEngine.sellPrice filtered) /\
      (forall p, In p filtered -> AnalysisEngine.sellPrice p <= m) /\
      AnalysisEngine.maxPlayerPrice result = AnalysisEngine.Num (bank + m)).
  { subst filtered result. unfold AnalysisEngine.compute.
    destruct (AnalysisEngine.currentSquad allPlayers picks) as [squad warnings].
    cbn [fst]. intros Hne.
    destruct (AnalysisEngine.filteredSquad squad) as [|p0 ps] eqn:Hf;
      [congruence|].
    cbn [length Nat.eqb].
    destruct (Math_max_nonempty (map AnalysisEngine.sellPrice (p0 :: ps)))
      as (m & Hm & Hin & Hall); [discriminate|].
    exists m. split; [exact Hin|]. split.
    - intros p Hp. apply Hall. now apply in_map.
    - unfold AnalysisEngine.maxPlayerPriceOf, AnalysisEngine.maxSellValue.
      rewrite Hm.
      cbn [AnalysisEngine.num_plus].
      now destruct (generate (p0 :: ps) _ _ allPlayers _ freeTransfers). }
  split; [exact General|].
  intros Hlen Hbank [p [Hp Hp4]] Hall.
  destruct General as (m & Hin & Hmax & Hres).
  { intros E. rewrite E in Hlen. discriminate. }
  exists (bank + m). split; [exact Hres|].
  apply in_map_iff in Hin. destruct Hin as (pm & <- & Hpm).
  assert (AnalysisEngine.sellPrice pm == 4).
  { apply Qle_antisym; [now apply Hall|].
    rewrite <- Hp4. now apply Hmax. }
  lra.
Qed.

Lemma max_player_price_is_bank_plus_max_sell_witness :
  exists q,
    AnalysisEngine.maxPlayerPrice
      (fst (AnalysisEngine.compute Examples.no_upgrades Examples.always_low
              Examples.scenario_catalog Examples.scenario_picks 2 1%Z
              (lit "2025-10-03T17:30:00Z")))
    = AnalysisEngine.Num q /\ q == 6.
Proof.
  apply (proj2 (max_player_price_is_bank_plus_max_sell
                  Examples.no_upgrades Examples.always_low
                  Examples.scenario_catalog Examples.scenario_picks 2 1%Z
                  (lit "2025-10-03T17:30:00Z"))).
  - reflexivity.
  - reflexivity.
  - eexists. split; [do 11 right; left; reflexivity | reflexivity].
  - intros p Hp. vm_compute in Hp.
    repeat (destruct Hp as [<- | Hp]; [vm_compute; discriminate|]).
    contradiction.
Defined.

(** C4.  A pick whose element matches no catalog record raises nothing:
    the builder returns a resolved pick without player, whose sell price is
    the fallback (a tenth of the override, or zero), and logs one warning
    that determines the missing identifier.  In the squad the pick keeps its
    place, it adds its sell price to the team value, and it is left out of
    the usable squad. *)
Theorem missing_player_is_recoverable
    (allPlayers : list AnalysisEngine.Player)
    (before after : list AnalysisEngine.Pick) (pk : AnalysisEngine.Pick) :
  (forall p, In p allPlayers ->
     AnalysisEngine.id p <> AnalysisEngine.element pk) ->
  let r := {| AnalysisEngine.pick := pk;
              AnalysisEngine.player := None;
              AnalysisEngine.sellPrice :=
                AnalysisEngine.computeSellPrice pk None |} in
  let squad :=
    fst (AnalysisEngine.currentSquad allPlayers (before ++ pk :: after)) in
  let warnings :=
    snd (AnalysisEngine.currentSquad allPlayers (before ++ pk :: after)) in
  AnalysisEngine.resolvePick allPlayers pk
    = (r, [AnalysisEngine.missingWarning pk])
  /\ AnalysisEngine.sellPrice r
     == match AnalysisEngine.selling_price pk with
        | Some v => amount v
        | None => 0
        end
  /\ (forall pk', AnalysisEngine.missingWarning pk'
                  = AnalysisEngine.missingWarning pk ->
                  AnalysisEngine.element pk' = AnalysisEngine.element pk)
  /\ nth_error squad (length before) = Some r
  /\ In (AnalysisEngine.missingWarning pk) warnings
  /\ AnalysisEngine.teamValueOf squad
     == AnalysisEngine.teamValueOf
          (fst (AnalysisEngine.currentSquad allPlayers (before ++ after)))
        + AnalysisEngine.sellPrice r
  /\ ~ In r (AnalysisEngine.filteredSquad squad).
Proof.
  intros Hno r squad warnings.
  assert (Hr : AnalysisEngine.resolvePick allPlayers pk
               = (r, [AnalysisEngine.missingWarning pk])).
  { unfold AnalysisEngine.resolvePick.
    now rewrite (findPlayer_none allPlayers pk Hno). }
  split; [exact Hr|]. split.
  { subst r. cbn [AnalysisEngine.sellPrice].
    unfold AnalysisEngine.computeSellPrice, AnalysisEngine.js_or.
    destruct (AnalysisEngine.selling_price pk) as [v|]; [|reflexivity].
    cbn [AnalysisEngine.truthy]. destruct (Z.eqb_spec v 0) as [-> | _];
      reflexivity. }
  split.
  { intros pk' H. unfold AnalysisEngine.missingWarning in H.
    apply app_inv_head in H. now apply str_of_Z_inj. }
  split.
  { subst squad. rewrite currentSquad_fst, map_app.
    rewrite nth_error_app2; rewrite length_map; [|apply Nat.le_refl].
    rewrite Nat.sub_diag. cbn [map nth_error]. now rewrite Hr. }
  split.
  { subst warnings. unfold AnalysisEngine.currentSquad.
    rewrite mapLogging_snd. apply in_flat_map. exists pk. split.
    - apply in_or_app. right. now left.
    - rewrite Hr. now left. }
  split.
  { subst squad. rewrite !teamValueOf_sum, !currentSquad_fst, !map_app.
    rewrite !Qsum_app. cbn [map]. rewrite Qsum_cons, Hr. cbn [fst]. ring. }
  intros Hin. apply filter_In in Hin. destruct Hin as [_ Hf].
  discriminate Hf.
Qed.

Lemma missing_player_is_recoverable_witness :
  AnalysisEngine.resolvePick [Examples.watkins] Examples.ghost_pick
  = ({| AnalysisEngine.pick := Examples.ghost_pick;
        AnalysisEngine.player := None;
        AnalysisEngine.sellPrice :=
          AnalysisEngine.computeSellPrice Examples.ghost_pick None |},
     [AnalysisEngine.missingWarning Examples.ghost_pick]).
Proof.
  apply (missing_player_is_recoverable
           [Examples.watkins] [Examples.watkins_pick] [] Examples.ghost_pick).
  intros p [<- | []]. discriminate.
Defined.





(** ** The recommendation generator *)

Section RecommendationFacts.

Import AnalysisEngine Recommendation.
Local Open Scope Q_scope.

Lemma In_firstn {A : Type} (n : nat) (l : list A) (x : A) :
  In x (firstn n l) -> In x l.
Proof.
  revert l; induction n as [|n IH]; intros [|y l]; simpl; try contradiction.
  intros [-> | H]; [now left | right; now apply IH].
Qed.

Lemma In_insertBy (sc : Player -> Q) (p x : Player) (l : list Player) :
  In x (insertBy sc p l) -> x = p \/ In x l.
Proof.
  induction l as [|q l IH]; simpl.
  - intros [<- | []]. now left.
  - destruct (Qle_bool (sc q) (sc p)); simpl.
    + intros [<- | H]; [now left | now right].
    + intros [<- | H]; [right; now left|].
      destruct (IH H) as [-> | H']; [now left | right; now right].
Qed.

Lemma In_rankBy (sc : Player -> Q) (x : Player) (l : list Player) :
  In x (rankBy sc l) -> In x l.
Proof.
  unfold rankBy. induction l as [|p l IH]; simpl; [trivial|].
  intros H. apply In_insertBy in H. destruct H as [-> | H];
    [now left | right; now apply IH].
Qed.

Lemma filter_all_false {A : Type} (f : A -> bool) (l : list A) :
  (forall x, In x l -> f x = false) -> filter f l = [].
Proof.
  induction l as [|x l IH]; intros H; simpl; [reflexivity|].
  rewrite (H x (or_introl eq_refl)). apply IH. intros y Hy. apply H. now right.
Qed.

Lemma flat_map_all_nil {A B : Type} (f : A -> list B) (l : list A) :
  (forall x, In x l -> f x = []) -> flat_map f l = [].
Proof.
  induction l as [|x l IH]; intros H; simpl; [reflexivity|].
  rewrite (H x (or_introl eq_refl)). apply IH. intros y Hy. apply H. now right.
Qed.

Lemma clubCount_without (c : Z) (out : ResolvedPick)
    (squad : list ResolvedPick) :
  (clubCount c (without out squad) <= clubCount c squad)%nat.
Proof.
  unfold clubCount, without. induction squad as [|r squad IH]; simpl; trivial.
  destruct (negb _); simpl; destruct (playsFor c r); simpl; lia.
Qed.

(** What legality gives for one swap. *)
Lemma legal_sound (squad : list ResolvedPick) (ceiling : number)
    (out : ResolvedPick) (p : Player) :
  legal squad ceiling out p = true ->
  (exists m, ceiling = Num m /\ price p <= m)
  /\ (exists q, player out = Some q /\ position_class p = position_class q)
  /\ (forall c, (clubCountAfter squad out p c <= 3)%nat \/
                (clubCountAfter squad out p c <= clubCount c squad)%nat).
Proof.
  unfold legal. rewrite !andb_true_iff. intros [[[Hpos Haff] _] Hcap].
  split; [|split].
  - destruct ceiling as [|m]; [discriminate|].
    exists m. split; [reflexivity|]. now apply Qle_bool_iff.
  - unfold samePosition in Hpos. destruct (player out) as [q|]; [|discriminate].
    exists q. split; [reflexivity|]. apply Z.eqb_eq in Hpos. now symmetry.
  - intros c. unfold capLegal in Hcap. apply Nat.leb_le in Hcap.
    unfold clubCountAfter in *. rewrite Z.eqb_refl in Hcap.
    destruct (Z.eqb_spec (club p) c) as [<- | _].
    + now left.
    + right. rewrite Nat.add_0_r. apply clubCount_without.
Qed.

Variable benchScore starterScore : ResolvedPick -> Player -> Q.
Variable improves : ResolvedPick -> Player -> bool.
Variable perSlot : nat.
Variable explain : ResolvedPick -> Player -> str.

Lemma upgradesFor_sound (score : ResolvedPick -> Player -> Q)
    (squad : list ResolvedPick) (catalog : list Player) (ceiling : number)
    (out : ResolvedPick) (u : Upgrade) :
  In u (upgradesFor improves perSlot explain score squad catalog ceiling out) ->
  outgoing u = out /\ In (incoming u) catalog
  /\ legal squad ceiling out (incoming u) = true.
Proof.
  unfold upgradesFor. intros H. apply in_map_iff in H.
  destruct H as (p & <- & Hp).
  apply In_firstn, In_rankBy in Hp. unfold candidates in Hp.
  apply filter_In in Hp. destruct Hp as [Hcat Hlegal].
  apply andb_true_iff in Hlegal. now repeat split.
Qed.

Lemma generate_sound (filtered : list ResolvedPick) (catalog : list Player)
    (ceiling : number) (freeTransfers : Z) (u : Upgrade) :
  let g := generate benchScore starterScore improves perSlot explain
             filtered (benchPlayers filtered) (starterPlayers filtered)
             catalog ceiling freeTransfers in
  In u (fst g ++ snd g) ->
  In (outgoing u) filtered /\ In (incoming u) catalog
  /\ legal filtered ceiling (outgoing u) (incoming u) = true.
Proof.
  cbn [generate fst snd]. intros H. apply in_app_or in H.
  destruct H as [H | H]; apply in_flat_map in H;
    destruct H as (out & Hout & Hu); apply filter_In in Hout;
    destruct Hout as [Hout _]; apply upgradesFor_sound in Hu;
    destruct Hu as (<- & Hcat & Hlegal); now repeat split.
Qed.

Lemma generate_nothing (filtered : list ResolvedPick) (catalog : list Player)
    (ceiling : number) (freeTransfers : Z) :
  (forall out p, In out filtered -> In p catalog ->
     legal filtered ceiling out p && improves out p = false) ->
  generate benchScore starterScore improves perSlot explain
    filtered (benchPlayers filtered) (starterPlayers filtered)
    catalog ceiling freeTransfers = ([], []).
Proof.
  intros H. unfold generate.
  assert (Hnone : forall score out, In out filtered ->
            upgradesFor improves perSlot explain score filtered catalog
              ceiling out = []).
  { intros score out Hout. unfold upgradesFor, candidates.
    rewrite filter_all_false; [now destruct perSlot|].
    intros p Hp. now apply H. }
  f_equal; apply flat_map_all_nil; intros out Hout;
    apply filter_In in Hout; now apply Hnone.
Qed.

End RecommendationFacts.

(** The result of [compute], by the branch taken. *)
Lemma compute_unfold
    (generate : list AnalysisEngine.ResolvedPick ->
                list AnalysisEngine.ResolvedPick ->
                list AnalysisEngine.ResolvedPick ->
                list AnalysisEngine.Player -> AnalysisEngine.number -> Z ->
                list AnalysisEngine.Upgrade * list AnalysisEngine.Upgrade)
    (assess : list AnalysisEngine.ResolvedPick -> str)
    (allPlayers : list AnalysisEngine.Player)
    (picks : list AnalysisEngine.Pick)
    (bank : Q) (freeTransfers : Z) (nextDeadline : str) :
  let filtered :=
    AnalysisEngine.filteredSquad
      (fst (AnalysisEngine.currentSquad allPlayers picks)) in
  let result :=
    fst (AnalysisEngine.compute generate assess allPlayers picks bank
           freeTransfers nextDeadline) in
  let ceiling := AnalysisEngine.maxPlayerPriceOf bank filtered in
  (filtered = [] /\
   AnalysisEngine.maxPlayerPrice result = AnalysisEngine.Num bank /\
   AnalysisEngine.benchUpgrades result = [] /\
   AnalysisEngine.starterTargets result = [])
  \/
  (filtered <> [] /\
   AnalysisEngine.maxPlayerPrice result = ceiling /\
   AnalysisEngine.benchUpgrades result
     = fst (generate filtered (AnalysisEngine.benchPlayers filtered)
              (AnalysisEngine.starterPlayers filtered)
              allPlayers ceiling freeTransfers) /\
   AnalysisEngine.starterTargets result
     = snd (generate filtered (AnalysisEngine.benchPlayers filtered)
              (AnalysisEngine.starterPlayers filtered)
              allPlayers ceiling freeTransfers)).
Proof.
  cbv zeta. unfold AnalysisEngine.compute.
  destruct (AnalysisEngine.currentSquad allPlayers picks) as [squad warnings].
  cbn [fst].
  destruct (AnalysisEngine.filteredSquad squad) as [|p0 ps] eqn:Hf.
  - left. now repeat split.
  - right. cbn [length Nat.eqb].
    destruct (generate (p0 :: ps) _ _ allPlayers _ freeTransfers) as [b s].
    now repeat split.
Qed.

Section RecommendationContract.

Variable benchScore starterScore :
  AnalysisEngine.ResolvedPick -> AnalysisEngine.Player -> Q.
Variable improves :
  AnalysisEngine.ResolvedPick -> AnalysisEngine.Player -> bool.
Variable perSlot : nat.
Variable explain :
  AnalysisEngine.ResolvedPick -> AnalysisEngine.Player -> str.

(** C5.  With the generator of section 4.3 plugged into the calculator,
    every entry of [benchUpgrades] and [starterTargets] is legal, whatever
    the ranking policy: the incoming price is at most [maxPlayerPrice]; the
    incoming player has the position of the outgoing one; and the swap
    pushes no club above 3 (after it, each club counts at most 3 or no more
    than before, so a squad within the cap stays within it).  The two lists
    are always there, and both are empty when no catalog player is a legal
    improvement on any usable pick. *)
Theorem emitted_upgrades_are_legal
    (assess : list AnalysisEngine.ResolvedPick -> str)
    (allPlayers : list AnalysisEngine.Player)
    (picks : list AnalysisEngine.Pick)
    (bank : Q) (freeTransfers : Z) (nextDeadline : str) :
  let squad :=
    AnalysisEngine.filteredSquad
      (fst (AnalysisEngine.currentSquad allPlayers picks)) in
  let result :=
    fst (AnalysisEngine.compute
           (Recommendation.generate benchScore starterScore improves perSlot
              explain)
           assess allPlayers picks bank freeTransfers nextDeadline) in
  (forall u,
     In u (AnalysisEngine.benchUpgrades result
           ++ AnalysisEngine.starterTargets result) ->
     (exists m,
        AnalysisEngine.maxPlayerPrice result = AnalysisEngine.Num m /\
        (Recommendation.price (AnalysisEngine.incoming u) <= m)%Q)
     /\ (exists q,
          AnalysisEngine.player (AnalysisEngine.outgoing u) = Some q /\
          AnalysisEngine.position_class (AnalysisEngine.incoming u)
          = AnalysisEngine.position_class q)
     /\ (forall c,
          (Recommendation.clubCountAfter squad (AnalysisEngine.outgoing u)
             (AnalysisEngine.incoming u) c <= 3)%nat \/
          (Recommendation.clubCountAfter squad (AnalysisEngine.outgoing u)
             (AnalysisEngine.incoming u) c
           <= Recommendation.clubCount c squad)%nat)
     /\ ((forall c, (Recommendation.clubCount c squad <= 3)%nat) ->
         forall c,
           (Recommendation.clubCountAfter squad (AnalysisEngine.outgoing u)
              (AnalysisEngine.incoming u) c <= 3)%nat))
  /\
  ((forall out p, In out squad -> In p allPlayers ->
      Recommendation.legal squad (AnalysisEngine.maxPlayerPrice result) out p
      && improves out p = false) ->
   AnalysisEngine.benchUpgrades result = [] /\
   AnalysisEngine.starterTargets result = []).
Proof.
  intros squad result.
  destruct (compute_unfold
              (Recommendation.generate benchScore starterScore improves
                 perSlot explain)
              assess allPlayers picks bank freeTransfers nextDeadline)
    as [(Hempty & Hmax & Hb & Hs) | (Hne & Hmax & Hb & Hs)];
    fold squad in Hempty || fold squad in Hne; fold result in Hmax, Hb, Hs;
    fold squad in Hmax, Hb, Hs.
  - rewrite Hb, Hs. split; [intros u []|]. now intros _.
  - rewrite Hmax, Hb, Hs. split.
    + intros u Hu. apply generate_sound in Hu. destruct Hu as (_ & _ & Hlegal).
      apply legal_sound in Hlegal. destruct Hlegal as (Haff & Hpos & Hcap).
      repeat split; trivial.
      intros Hinv c. destruct (Hcap c) as [H | H]; [exact H|].
      specialize (Hinv c). lia.
    + intros Hnone. rewrite generate_nothing; [now split | exact Hnone].
Qed.

End RecommendationContract.

Lemma emitted_upgrades_are_legal_witness :
  let result :=
    fst (AnalysisEngine.compute
           (Recommendation.generate Examples.by_price Examples.by_price
              Examples.any_improves 1 Examples.plain_rationale)
           Examples.always_low Examples.wider_catalog Examples.scenario_picks
           2 1%Z (lit "2025-10-03T17:30:00Z")) in
  AnalysisEngine.benchUpgrades result
  = [Recommendation.mkUpgrade Examples.plain_rationale Examples.bench_keeper
       Examples.flekken]
  /\
  exists m,
    AnalysisEngine.maxPlayerPrice result = AnalysisEngine.Num m /\
    (Recommendation.price Examples.flekken <= m)%Q.
Proof.
  intros result.
  assert (Hb : AnalysisEngine.benchUpgrades result
               = [Recommendation.mkUpgrade Examples.plain_rationale
                    Examples.bench_keeper Examples.flekken])
    by (vm_compute; reflexivity).
  split; [exact Hb|].
  apply (proj1 (emitted_upgrades_are_legal
                  Examples.by_price Examples.by_price Examples.any_improves 1
                  Examples.plain_rationale Examples.always_low
                  Examples.wider_catalog Examples.scenario_picks
                  2 1%Z (lit "2025-10-03T17:30:00Z"))
               (Recommendation.mkUpgrade Examples.plain_rationale
                  Examples.bench_keeper Examples.flekken)).
  fold result. rewrite Hb. now left.
Defined.

(** ** The answer harness *)

Section HarnessFacts.

Import CopilotFixes.

Variable lower : str -> str.
Variable format_2f : Q -> str.

Lemma garbled_has_pound (msg : str) :
  occurs garbled_pound msg -> occurs pound msg.
Proof.
  intros [a [b ->]]. exists (a ++ [194%N]), b.
  now rewrite <- app_assoc.
Qed.

Lemma check_currency_garbled (msg : str) (v : verdict) :
  occurs garbled_pound msg ->
  check_currency msg v = fail v (lit "Found garbled currency symbols").
Proof.
  intros H. unfold check_currency.
  assert (Hp : contains pound msg = true)
    by now apply contains_spec, garbled_has_pound.
  apply contains_spec in H. now rewrite Hp, H.
Qed.

Lemma check_response_time_keeps (t : Q) (v : verdict) (issue : str) :
  In issue (snd v) ->
  fst (check_response_time format_2f t v) = fst v /\
  In issue (snd (check_response_time format_2f t v)).
Proof.
  intros H. unfold check_response_time, note.
  destruct (Qlt_le_dec 15 t); cbn [fst snd]; split; trivial.
  apply in_or_app. now left.
Qed.

Lemma judge_garbled (test_case : TestCase) (result : ChatResult) :
  occurs garbled_pound (get_message result) ->
  fst (judge lower format_2f test_case result) = false /\
  (error result = None ->
   In (lit "Found garbled currency symbols")
      (snd (judge lower format_2f test_case result))).
Proof.
  intros Hocc. unfold judge.
  destruct (error result) as [e|]; [split; [reflexivity | discriminate]|].
  rewrite (check_currency_garbled _ _ Hocc).
  match goal with
  | |- context [fail ?v ?i] =>
      destruct (check_response_time_keeps (response_time result) (fail v i) i)
        as [Hfst Hin]
  end.
  - cbn [fail snd]. apply in_or_app. right. now left.
  - split; [now rewrite Hfst | intros _; exact Hin].
Qed.

Variable mentionsUnknownPlayer :
  str -> AnalysisEngine.AnalysisResult -> bool.
Variable referencesStaleGameweek : str -> bool.
Variable omitsCurrency : str -> bool.

(** C6.  An answer that holds the mis-decoded pound sign (U+00C2 U+00A3, as
    in the garbled price of 12.3m) is not let through.  The validator of
    section 4.5 returns [accepted = false] with a [CurrencyEncoding]
    violation, whatever its other rules find.  The harness of the
    repository agrees: for every test case it judges the test failed, and
    when the result is an answer (it has no error key) it records the issue
    ["Found garbled currency symbols"]. *)
Theorem garbled_currency_is_rejected
    (answerText : str) (analysisResult : AnalysisEngine.AnalysisResult)
    (test_case : TestCase) (result : ChatResult) :
  occurs garbled_pound answerText ->
  let v := GroundingValidator.validate mentionsUnknownPlayer
             referencesStaleGameweek omitsCurrency answerText
             analysisResult in
  GroundingValidator.accepted v = false /\
  In GroundingValidator.CurrencyEncoding (GroundingValidator.violations v) /\
  (get_message result = answerText ->
   fst (judge lower format_2f test_case result) = false /\
   (error result = None ->
    In (lit "Found garbled currency symbols")
       (snd (judge lower format_2f test_case result)))).
Proof.
  intros Hocc v.
  assert (Hin : In GroundingValidator.CurrencyEncoding
                  (GroundingValidator.violations v)).
  { subst v. cbn [GroundingValidator.validate GroundingValidator.violations].
    apply contains_spec in Hocc. rewrite Hocc.
    apply in_or_app. right. apply in_or_app. right. now left. }
  split; [|split; [exact Hin|]].
  - subst v. cbn [GroundingValidator.validate GroundingValidator.accepted
                  GroundingValidator.violations] in *.
    match goal with
    | |- match ?l with _ => _ end = false => destruct l; [contradiction|]
    end.
    reflexivity.
  - intros <-. now apply judge_garbled.
Qed.

End HarnessFacts.

Lemma garbled_currency_is_rejected_witness :
  occurs CopilotFixes.garbled_pound
    (CopilotFixes.get_message Examples.garbled_answer) /\
  GroundingValidator.accepted
    (GroundingValidator.validate (fun _ _ => false) (fun _ => false)
       (fun _ => false) (CopilotFixes.get_message Examples.garbled_answer)
       Examples.some_result) = false /\
  fst (CopilotFixes.judge Examples.ascii_lower Examples.two_decimals
         Examples.price_test Examples.garbled_answer) = false /\
  In (lit "Found garbled currency symbols")
     (snd (CopilotFixes.judge Examples.ascii_lower Examples.two_decimals
             Examples.price_test Examples.garbled_answer)).
Proof.
  assert (H : occurs CopilotFixes.garbled_pound
                (CopilotFixes.get_message Examples.garbled_answer))
    by (apply contains_spec; vm_compute; reflexivity).
  split; [exact H|].
  destruct (garbled_currency_is_rejected Examples.ascii_lower
              Examples.two_decimals (fun _ _ => false) (fun _ => false)
              (fun _ => false)
              (CopilotFixes.get_message Examples.garbled_answer)
              Examples.some_result Examples.price_test
              Examples.garbled_answer H)
    as (Hrejected & _ & Hharness).
  split; [exact Hrejected|].
  destruct (Hharness eq_refl) as [Hfailed Hissue].
  split; [exact Hfailed | apply Hissue; reflexivity].
Defined.

(** The second operand of [or] being the empty string, the inner test of
    the currency check always holds: an answer with a well-encoded pound
    sign is reported too. *)
Example well_encoded_pound_is_reported :
  let result :=
    {| CopilotFixes.error := None;
       CopilotFixes.answer :=
         Some (lit "I can help: Haaland costs "
               ++ CopilotFixes.pound ++ lit "12.3m");
       CopilotFixes.response_time := 12 # 10 |} in
  contains CopilotFixes.garbled_pound (CopilotFixes.get_message result)
  = false /\
  CopilotFixes.judge Examples.ascii_lower Examples.two_decimals
    Examples.price_test result
  = (false, [lit "Found garbled currency symbols"]).
Proof. split; vm_compute; reflexivity. Qed.

(** ** The question list *)

(** C10.  [build_questions] returns normally, with a list of exactly 100
    pairs of a category and a prompt: its ten groups count 12, 12, 10, 10,
    10, 8, 8, 10, 10 and 10 questions, so [ValueError] is never raised. *)
Theorem build_questions_returns_100 :
  exists questions,
    CopilotRun.build_questions = inr questions /\
    length questions = 100%nat /\
    map (@length str)
        [ CopilotRun.analysis_focus; CopilotRun.chip_scenarios;
          CopilotRun.fixture_scenarios; CopilotRun.injury_checks;
          CopilotRun.differential_hunts; CopilotRun.budget_management;
          CopilotRun.risk_profiles; CopilotRun.general_queries ]
    = [12; 10; 10; 8; 8; 10; 10; 10]%nat /\
    map (@length (str * str * str))
        [ CopilotRun.transfer_scenarios; CopilotRun.comparison_pairs ]
    = [12; 10]%nat.
Proof.
  eexists. split; [vm_compute; reflexivity|].
  repeat split; vm_compute; reflexivity.
Qed.

(** * Further properties of the code *)

(** ** Replacement and occurrences *)

(** An occurrence of [pat] in [u ++ mid ++ r], when [pat] shares no border
    with [mid], lies in [u] or in [r]. *)
Lemma occurs_around (pat mid u r : str) :
  border_free pat mid = true ->
  occurs pat (u ++ mid ++ r) -> occurs pat u \/ occurs pat r.
Proof.
  intros Hbf Hocc.
  unfold border_free in Hbf. rewrite !andb_true_iff, !negb_true_iff in Hbf.
  destruct Hbf as [[[Hpm Hmp] Hov1] Hov2].
  apply occurs_app_cases in Hocc. destruct Hocc as [Hu | [Hmr | Hov]].
  - now left.
  - apply occurs_app_cases in Hmr. destruct Hmr as [Hin | [Hr | Hov]].
    + apply contains_spec in Hin. congruence.
    + now right.
    + exfalso. destruct Hov as (p1 & p2 & a' & b' & H1 & H2 & Hp & Ha & Hb).
      assert (overlaps mid pat = true); [|congruence].
      apply overlaps_spec. now exists p1, a', p2.
  - exfalso. destruct Hov as (p1 & p2 & a' & b' & H1 & H2 & Hp & Ha & Hb).
    apply app_eq_app in Hb. destruct Hb as [l [[Hmid Hb'] | [Hp2 Hrl]]].
    + assert (overlaps pat mid = true); [|congruence].
      apply overlaps_spec. now exists p2, p1, l.
    + assert (contains mid pat = true); [|congruence].
      apply contains_spec. exists p1, l. now rewrite Hp, Hp2.
Qed.

(** The split of [replace_split] is at the first occurrence: [old] does not
    occur before it. *)
Lemma replace_split_first (old new t : str) :
  old <> [] -> occurs old t ->
  exists u rest,
    t = u ++ old ++ rest /\
    replace old new t = u ++ new ++ replace old new rest /\
    ~ occurs old u.
Proof.
  intros Hne. induction t as [|c t IH]; intros Hocc.
  - destruct Hocc as [a [b H]].
    destruct a; destruct old; simpl in H; congruence.
  - destruct (startswith old (c :: t)) eqn:E.
    + apply startswith_spec in E. destruct E as [rest E].
      exists [], rest. rewrite E. split; [reflexivity|].
      split; [now apply replace_hit|].
      intros [a [b H]]. destruct a; destruct old; simpl in H; congruence.
    + assert (Ht : occurs old t).
      { destruct Hocc as [a [b H]]. destruct a as [|y a].
        - assert (startswith old (c :: t) = true)
            by (apply startswith_spec; now exists b).
          congruence.
        - injection H as _ H. now exists a, b. }
      destruct (IH Ht) as (u & rest & Hu & Hr & Hfirst).
      exists (c :: u), rest. split; [simpl; now rewrite Hu|]. split.
      * rewrite replace_miss; trivial. simpl. now rewrite Hr.
      * intros [a [b H]]. destruct a as [|y a].
        -- assert (startswith old (c :: t) = true); [|congruence].
           apply startswith_spec. exists (b ++ old ++ rest).
           rewrite Hu. simpl in H. rewrite app_comm_cons, H.
           now rewrite <- !app_assoc.
        -- injection H as _ H. apply Hfirst. now exists a, b.
Qed.

(** Replacing [old] keeps the occurrences of a [pat] that shares no border
    with [old]. *)
Lemma replace_keeps_occurrence (pat old new : str) :
  old <> [] -> border_free pat old = true ->
  forall t, occurs pat t -> occurs pat (replace old new t).
Proof.
  intros Hne Hbf t. remember (length t) as n eqn:Hn. revert t Hn.
  induction n as [n IH] using lt_wf_ind. intros t Hn Hocc.
  destruct (contains old t) eqn:Hc.
  - apply contains_spec in Hc.
    destruct (replace_split old new t Hne Hc) as (u & rest & Ht & Hr).
    rewrite Hr. rewrite Ht in Hocc.
    destruct (occurs_around _ _ _ _ Hbf Hocc) as [Hu | Hrest].
    + now apply occurs_app_l.
    + apply occurs_app_r, occurs_app_r. apply (IH (length rest)); trivial.
      subst n t. rewrite !length_app. destruct old; [contradiction | simpl; lia].
  - apply contains_false in Hc. now rewrite replace_absent.
Qed.

(** Replacing [old] by a [new] that shares no border with it leaves no
    occurrence of [old]. *)
Lemma replace_removes (old new : str) :
  old <> [] -> border_free old new = true ->
  forall t, ~ occurs old (replace old new t).
Proof.
  intros Hne Hbf t. remember (length t) as n eqn:Hn. revert t Hn.
  induction n as [n IH] using lt_wf_ind. intros t Hn.
  destruct (contains old t) eqn:Hc.
  - apply contains_spec in Hc.
    destruct (replace_split_first old new t Hne Hc)
      as (u & rest & Ht & Hr & Hfirst).
    rewrite Hr. intros Hocc.
    destruct (occurs_around _ _ _ _ Hbf Hocc) as [Hu | Hrest];
      [contradiction|].
    revert Hrest. apply (IH (length rest)); trivial.
    subst n t. rewrite !length_app. destruct old; [contradiction | simpl; lia].
  - apply contains_false in Hc. now rewrite replace_absent.
Qed.

(** What replaces a found pattern is in the result. *)
Lemma replace_puts (old new t : str) :
  old <> [] -> occurs old t -> occurs new (replace old new t).
Proof.
  intros Hne Hocc.
  destruct (replace_split old new t Hne Hocc) as (u & rest & _ & Hr).
  rewrite Hr. now exists u, (replace old new rest).
Qed.

Section PatchScriptMore.

Import PatchScript.

Lemma pattern_borders :
  border_free old2 old = true /\ border_free old3 old = true /\
  border_free old3 old2 = true /\ border_free old new = true /\
  border_free old new2 = true /\ border_free old2 new2 = true /\
  border_free new old2 = true.
Proof. repeat split; vm_compute; reflexivity. Qed.

End PatchScriptMore.

(** ** The patch script, when it goes through *)


Lemma patched_has_no_old (content : str) :
  ~ occurs PatchScript.old (patched content).
Proof.
  destruct pattern_borders as (_ & _ & _ & Hon & Hon2 & _ & _).
  intros H. unfold patched in H.
  apply replace_creates_no_occurrence in H;
    [| exact old2_nonempty | exact Hon2].
  revert H. apply replace_removes; [exact old_nonempty | exact Hon].
Qed.

(** On the text it works on, the script goes through whenever the three
    patterns occur in it, and hands the patched text to [write_text]. *)
Lemma fix_analysis_block_succeeds (content : str) :
  occurs PatchScript.old content ->
  occurs PatchScript.old2 content ->
  occurs PatchScript.old3 content ->
  PatchScript.fix_analysis_block (PatchScript.initially content) =
  (inr tt, {| PatchScript.file := Some (patched content);
              PatchScript.written := [patched content] |}).
Proof.
  intros H1 H2 H3.
  destruct pattern_borders as (Hb21 & Hb31 & Hb32 & _).
  rewrite fix_analysis_block_run.
  apply contains_spec in H1. rewrite H1. cbv [negb].
  apply (replace_keeps_occurrence _ _ PatchScript.new old_nonempty Hb21) in H2.
  apply contains_spec in H2. rewrite H2. cbv [negb].
  apply (replace_keeps_occurrence _ _ PatchScript.new old_nonempty Hb31) in H3.
  apply (replace_keeps_occurrence _ _ PatchScript.new2 old2_nonempty Hb32) in H3.
  fold (patched content) in H3.
  apply contains_spec in H3. rewrite H3. reflexivity.
Qed.

(** X2.  What the patched text holds: never [old] nor [old2], the forms
    with the four-character line ends; and for each pattern that was in the
    file, what takes its place: [new] for [old], [new2] for [old2], [old3]
    for itself. *)
Theorem patched_text_contents (content : str) :
  ~ occurs PatchScript.old (patched content) /\
  ~ occurs PatchScript.old2 (patched content) /\
  (occurs PatchScript.old content ->
   occurs PatchScript.new (patched content)) /\
  (occurs PatchScript.old2 content ->
   occurs PatchScript.new2 (patched content)) /\
  (occurs PatchScript.old3 content ->
   occurs PatchScript.old3 (patched content)).
Proof.
  destruct pattern_borders as (Hb21 & Hb31 & Hb32 & Hon & Hon2 & Ho2n2 & Hno2).
  split; [apply patched_has_no_old|]. split.
  { unfold patched. apply replace_removes; [exact old2_nonempty | exact Ho2n2]. }
  split; [|split]; intros H; unfold patched.
  - apply replace_keeps_occurrence; [exact old2_nonempty | exact Hno2 |].
    apply replace_puts; [exact old_nonempty | exact H].
  - apply replace_puts; [exact old2_nonempty|].
    apply replace_keeps_occurrence; [exact old_nonempty | exact Hb21 | exact H].
  - apply replace_keeps_occurrence; [exact old2_nonempty | exact Hb32 |].
    apply replace_keeps_occurrence; [exact old_nonempty | exact Hb31 | exact H].
Qed.

Lemma patched_text_contents_witness :
  occurs PatchScript.new (patched Examples.corrupted_engine) /\
  occurs PatchScript.new2 (patched Examples.corrupted_engine) /\
  occurs PatchScript.old3 (patched Examples.corrupted_engine).
Proof.
  destruct (patched_text_contents Examples.corrupted_engine)
    as (_ & _ & H1 & H2 & H3).
  repeat split; [apply H1 | apply H2 | apply H3];
    apply contains_spec; vm_compute; reflexivity.
Defined.



(** X4.  The third replacement puts [old3] in the place of [old3]: it
    changes no text, so that step of the script only checks that the
    pattern is there. *)
Theorem third_replacement_changes_nothing (text : str) :
  replace PatchScript.old3 PatchScript.old3 text = text.
Proof. apply replace_same, old3_nonempty. Qed.

(** ** The squad builder and the split *)

Lemma find_first {A : Type} (f : A -> bool) (l : list A) (x : A) :
  find f l = Some x ->
  exists l1 l2,
    l = l1 ++ x :: l2 /\ f x = true /\ forall y, In y l1 -> f y = false.
Proof.
  induction l as [|a l IH]; simpl; [discriminate|].
  destruct (f a) eqn:Fa.
  - intros H. injection H as <-. exists [], l. now repeat split.
  - intros H. destruct (IH H) as (l1 & l2 & -> & Fx & Hl1).
    exists (a :: l1), l2. repeat split; trivial.
    intros y [<- | Hy]; [exact Fa | now apply Hl1].
Qed.

(** X5.  The builder keeps the picks: the resolved picks carry the given
    picks, as many and in the same order. *)
Theorem builder_keeps_the_picks
    (allPlayers : list AnalysisEngine.Player)
    (picks : list AnalysisEngine.Pick) :
  map AnalysisEngine.pick
      (fst (AnalysisEngine.currentSquad allPlayers picks)) = picks.
Proof.
  rewrite currentSquad_fst, map_map.
  induction picks as [|pk picks IH]; [reflexivity|].
  cbn [map]. now rewrite IH.
Qed.

(** X6.  A resolved pick that has a player has the first player of the
    catalog whose [id] is the pick's [element]: the player is in the
    catalog, his [id] is the [element], and no player before him has that
    [id]. *)
Theorem resolved_player_is_first_match
    (allPlayers : list AnalysisEngine.Player)
    (picks : list AnalysisEngine.Pick)
    (r : AnalysisEngine.ResolvedPick) (p : AnalysisEngine.Player) :
  In r (fst (AnalysisEngine.currentSquad allPlayers picks)) ->
  AnalysisEngine.player r = Some p ->
  AnalysisEngine.id p = AnalysisEngine.element (AnalysisEngine.pick r) /\
  exists before after,
    allPlayers = before ++ p :: after /\
    forall q, In q before ->
      AnalysisEngine.id q
      <> AnalysisEngine.element (AnalysisEngine.pick r).
Proof.
  rewrite currentSquad_fst. intros Hin Hp.
  apply in_map_iff in Hin. destruct Hin as (pk & <- & _).
  cbn [fst AnalysisEngine.resolvePick AnalysisEngine.player
       AnalysisEngine.pick] in *.
  apply find_first in Hp. destruct Hp as (l1 & l2 & Hl & Hid & Hbefore).
  apply Z.eqb_eq in Hid. split; [exact Hid|].
  exists l1, l2. split; [exact Hl|].
  intros q Hq. apply Z.eqb_neq. now apply Hbefore.
Qed.

Lemma resolved_player_is_first_match_witness :
  AnalysisEngine.id Examples.watkins
  = AnalysisEngine.element
      (AnalysisEngine.pick
         (fst (AnalysisEngine.resolvePick
                 [Examples.flekken; Examples.watkins; Examples.watkins]
                 Examples.watkins_pick))).
Proof.
  apply (resolved_player_is_first_match
           [Examples.flekken; Examples.watkins; Examples.watkins]
           [Examples.ghost_pick; Examples.watkins_pick]
           (fst (AnalysisEngine.resolvePick
                   [Examples.flekken; Examples.watkins; Examples.watkins]
                   Examples.watkins_pick))
           Examples.watkins).
  - right; left; reflexivity.
  - reflexivity.
Defined.

(** X7.  The builder warns once for each pick that the catalog does not
    resolve, in the order of the picks, and for no other. *)
Theorem one_warning_per_unresolved_pick
    (allPlayers : list AnalysisEngine.Player)
    (picks : list AnalysisEngine.Pick) :
  snd (AnalysisEngine.currentSquad allPlayers picks) =
  map AnalysisEngine.missingWarning
      (filter (fun pk =>
                 match AnalysisEngine.findPlayer allPlayers pk with
                 | Some _ => false
                 | None => true
                 end) picks).
Proof.
  unfold AnalysisEngine.currentSquad. rewrite mapLogging_snd.
  induction picks as [|pk picks IH]; [reflexivity|].
  cbn [flat_map filter]. rewrite IH.
  cbn [snd AnalysisEngine.resolvePick].
  now destruct (AnalysisEngine.findPlayer allPlayers pk).
Qed.

(** X8.  Bench and starters split the usable squad: a usable pick is on
    the bench or among the starters, never both, and the two lists are as
    long together as the usable squad. *)
Theorem bench_and_starters_split
    (filtered : list AnalysisEngine.ResolvedPick) :
  (forall r, In r filtered <->
             In r (AnalysisEngine.benchPlayers filtered) \/
             In r (AnalysisEngine.starterPlayers filtered))
  /\ (forall r, ~ (In r (AnalysisEngine.benchPlayers filtered) /\
                   In r (AnalysisEngine.starterPlayers filtered)))
  /\ (length (AnalysisEngine.benchPlayers filtered)
      + length (AnalysisEngine.starterPlayers filtered)
      = length filtered)%nat.
Proof.
  unfold AnalysisEngine.benchPlayers, AnalysisEngine.starterPlayers.
  split; [|split].
  - intros r. rewrite !filter_In. split.
    + intros Hr.
      destruct (Z.ltb_spec 11 (AnalysisEngine.position (AnalysisEngine.pick r)));
        [left | right]; split; trivial.
      apply Z.leb_le. lia.
    + intros [[Hr _] | [Hr _]]; exact Hr.
  - intros r [Hb Hs]. apply filter_In in Hb, Hs.
    destruct Hb as [_ Hb], Hs as [_ Hs].
    apply Z.ltb_lt in Hb. apply Z.leb_le in Hs. lia.
  - induction filtered as [|r l IH]; [reflexivity|]. cbn [filter].
    destruct (Z.ltb_spec 11 (AnalysisEngine.position (AnalysisEngine.pick r)));
      destruct (Z.leb_spec (AnalysisEngine.position (AnalysisEngine.pick r)) 11);
      try lia; cbn [length]; lia.
Qed.

(** X9.  [maxSellValue] is [-Infinity] exactly on the empty usable squad,
    the case the guard before it returns on; on any other squad it is a
    number. *)
Theorem max_sell_value_infinite_iff_empty
    (filtered : list AnalysisEngine.ResolvedPick) :
  AnalysisEngine.maxSellValue filtered = AnalysisEngine.NegInfinity
  <-> filtered = [].
Proof.
  split.
  - intros H. destruct filtered as [|p ps]; [reflexivity|].
    destruct (Math_max_nonempty
                (map AnalysisEngine.sellPrice (p :: ps))) as (m & Hm & _);
      [discriminate|].
    unfold AnalysisEngine.maxSellValue in H. congruence.
  - intros ->. reflexivity.
Qed.

(** ** The verdict of the harness *)

Section VerdictFacts.

Import CopilotFixes.

Variable lower : str -> str.
Variable format_2f : Q -> str.

Lemma contains_nil (t : str) : contains [] t = true.
Proof. now destruct t. Qed.

Lemma fold_check_expected (msg : str) (expected : list str) (v : verdict) :
  fst (fold_left (check_expected lower msg) expected v)
  = fst v && forallb (fun e => contains (lower e) (lower msg)) expected.
Proof.
  revert v; induction expected as [|e l IH]; intros v; cbn [fold_left forallb].
  - now rewrite andb_true_r.
  - rewrite IH. unfold check_expected.
    destruct (contains (lower e) (lower msg)); cbn [negb fail fst andb].
    + reflexivity.
    + now rewrite andb_false_r.
Qed.

Lemma fold_check_forbidden (msg : str) (forbidden : list str) (v : verdict) :
  fst (fold_left (check_forbidden lower msg) forbidden v)
  = fst v
    && forallb (fun f => negb (contains (lower f) (lower msg))) forbidden.
Proof.
  revert v; induction forbidden as [|f l IH]; intros v;
    cbn [fold_left forallb].
  - now rewrite andb_true_r.
  - rewrite IH. unfold check_forbidden.
    destruct (contains (lower f) (lower msg)); cbn [negb fail fst andb].
    + now rewrite andb_false_r.
    + reflexivity.
Qed.

Lemma check_currency_fst (msg : str) (v : verdict) :
  fst (check_currency msg v) = fst v && negb (contains pound msg).
Proof.
  unfold check_currency. rewrite contains_nil, orb_true_r.
  destruct (contains pound msg); cbn [negb fail fst].
  - now rewrite andb_false_r.
  - now rewrite andb_true_r.
Qed.

Lemma check_response_time_fst (t : Q) (v : verdict) :
  fst (check_response_time format_2f t v) = fst v.
Proof.
  unfold check_response_time. now destruct (Qlt_le_dec 15 t).
Qed.

(** X10.  When a test passes.  The harness passes a test exactly when the
    result has no ["error"] entry, its message holds every expected text
    and no forbidden text (all lower-cased), and the message holds no pound
    sign at all: the inner test of the currency check, with the empty
    string as second operand, holds for every message. *)
Theorem test_passes_iff (test_case : TestCase) (result : ChatResult) :
  fst (judge lower format_2f test_case result) = true <->
  error result = None
  /\ (forall e, In e (expected_contains test_case) ->
        contains (lower e) (lower (get_message result)) = true)
  /\ (forall f, In f (should_not_contain test_case) ->
        contains (lower f) (lower (get_message result)) = false)
  /\ contains pound (get_message result) = false.
Proof.
  unfold judge. destruct (error result) as [e|].
  - cbn [fail fst]. split; [discriminate | intros [H _]; discriminate].
  - rewrite check_response_time_fst, check_currency_fst,
      fold_check_forbidden, fold_check_expected.
    cbn [fst andb]. rewrite !andb_true_iff, !forallb_forall, negb_true_iff.
    split.
    + intros [[He Hf] Hp]. repeat split; trivial.
      intros f Hin. apply negb_true_iff. now apply Hf.
    + intros (_ & He & Hf & Hp). repeat split; trivial.
      intros f Hin. apply negb_true_iff. now apply Hf.
Qed.

(** X11.  A slow response is reported and nothing more: the response time
    never changes whether the test passes; a time of at most 15 leaves the
    issues as they are, and a greater one adds the single issue
    ["Slow response time: ...s"] after them. *)
Theorem response_time_only_adds_an_issue
    (test_case : TestCase) (result : ChatResult) :
  (forall t,
     fst (judge lower format_2f test_case (at_time result t))
     = fst (judge lower format_2f test_case result))
  /\ (error result = None -> response_time result <= 15 ->
      judge lower format_2f test_case result
      = judge lower format_2f test_case (at_time result 0))
  /\ (error result = None -> 15 < response_time result ->
      judge lower format_2f test_case result
      = (fst (judge lower format_2f test_case (at_time result 0)),
         snd (judge lower format_2f test_case (at_time result 0))
         ++ [lit "Slow response time: "
             ++ format_2f (response_time result) ++ lit "s"])).
Proof.
  assert (Hzero : forall v, check_response_time format_2f 0 v = v).
  { intros v. unfold check_response_time.
    destruct (Qlt_le_dec 15 0) as [H|_]; [|reflexivity].
    exfalso. revert H. apply Qle_not_lt. discriminate. }
  unfold judge, at_time, get_message. cbn [error answer response_time].
  split; [|split].
  - intros t. destruct (error result); [reflexivity|].
    now rewrite !check_response_time_fst.
  - intros -> Hle. rewrite Hzero. unfold check_response_time.
    destruct (Qlt_le_dec 15 (response_time result)) as [H|_]; [|reflexivity].
    exfalso. revert H. now apply Qle_not_lt.
  - intros -> Hlt. rewrite Hzero. unfold check_response_time.
    destruct (Qlt_le_dec 15 (response_time result)) as [_|H]; [reflexivity|].
    exfalso. revert Hlt. now apply Qle_not_lt.
Qed.

End VerdictFacts.

Lemma response_time_only_adds_an_issue_witness :
  CopilotFixes.judge Examples.ascii_lower Examples.two_decimals
    Examples.price_test (at_time Examples.garbled_answer 20)
  = (fst (CopilotFixes.judge Examples.ascii_lower Examples.two_decimals
            Examples.price_test (at_time Examples.garbled_answer 0)),
     snd (CopilotFixes.judge Examples.ascii_lower Examples.two_decimals
            Examples.price_test (at_time Examples.garbled_answer 0))
     ++ [lit "Slow response time: " ++ Examples.two_decimals 20 ++ lit "s"]).
Proof.
  apply (proj2 (proj2 (response_time_only_adds_an_issue
                         Examples.ascii_lower Examples.two_decimals
                         Examples.price_test
                         (at_time Examples.garbled_answer 20))));
    reflexivity.
Defined.

(** ** The requests of the harness *)

Section RunFacts.

Import AICopilotTester.

Variable lower : str -> str.
Variable format_2f : Q -> str.
Variable post : str -> Exchange.

(** X12.  What [test_chat_endpoint] hands to the loop.  Its result has no
    ["error"] entry exactly when the server answered with status 200 and a
    dictionary without that entry; the result then carries the dictionary's
    message and the time measured after the request.  In every other case
    (the request raised, another status, a body that is no dictionary, an
    ["error"] entry in the body) the test fails with the one issue
    ["API Error: ..."], whatever the test case expects. *)
Theorem endpoint_errors_fail_the_test (message : str) :
  let result := test_chat_endpoint post message in
  (CopilotFixes.error result = None <->
   exists msg t t',
     post message = Responded 200 (Dict None msg) t t' /\
     CopilotFixes.answer result = msg /\
     CopilotFixes.response_time result = t)
  /\ (forall e test_case,
        CopilotFixes.error result = Some e ->
        CopilotFixes.judge lower format_2f test_case result
        = (false, [lit "API Error: " ++ e]))
  /\ (forall status body t t',
        post message = Responded status body t t' -> status <> 200%Z ->
        CopilotFixes.error result
        = Some (lit "HTTP " ++ str_of_Z status)).
Proof.
  cbv zeta. unfold test_chat_endpoint. split; [|split].
  - split.
    + destruct (post message) as [why t | status body t t']; [discriminate|].
      destruct (Z.eqb_spec status 200) as [-> | _]; [|discriminate].
      destruct body as [e msg | why]; [|discriminate].
      cbn [CopilotFixes.error]. intros ->. now exists msg, t, t'.
    + intros (msg & t & t' & -> & _). reflexivity.
  - intros e test_case He. unfold CopilotFixes.judge. now rewrite He.
  - intros status body t t' -> Hs.
    apply Z.eqb_neq in Hs. now rewrite Hs.
Qed.

End RunFacts.

Lemma endpoint_errors_fail_the_test_witness :
  CopilotFixes.judge Examples.ascii_lower Examples.two_decimals
    Examples.price_test
    (AICopilotTester.test_chat_endpoint Examples.server_down
       (CopilotFixes.message Examples.price_test))
  = (false, [lit "API Error: " ++ lit "HTTP 503"]).
Proof.
  apply (proj1 (proj2 (endpoint_errors_fail_the_test
                         Examples.ascii_lower Examples.two_decimals
                         Examples.server_down
                         (CopilotFixes.message Examples.price_test)))).
  reflexivity.
Defined.

(** ** The run of the harness *)

Section RunTotals.

Import ComprehensiveTest.

Variable lower : str -> str.
Variable format_2f : Q -> str.
Variable format_value : Json -> str.
Variable assignment_error : Json -> str.
Variable average : list Q -> Q.
Variable post : nat -> str -> Reply.
Variable log_opens : bool.

Local Notation "'judge'" :=
  (ComprehensiveTest.judge lower format_2f format_value).
Local Notation "'loop'" :=
  (run_loop lower format_2f format_value assignment_error post).
Local Notation "'run'" :=
  (run_tests lower format_2f format_value assignment_error average post).
Local Notation "'results_of'" := (asked assignment_error post).
Local Notation "'passing'" := (passes lower format_2f format_value).
Local Notation "'raising'" := (raises lower format_2f format_value).
Local Notation "'start' cases" :=
  {| total_tests := length cases;
     passed_tests := 0;
     failed_tests := 0;
     errors := [];
     response_times := [];
     test_details := [];
     stats := None |} (at level 10).

Lemma filter_none {A : Type} (f : A -> bool) (l : list A) :
  length (filter f l) = 0%nat <-> forall x, In x l -> f x = false.
Proof.
  induction l as [|a l IH]; cbn [filter].
  - split; [intros _ x [] | reflexivity].
  - destruct (f a) eqn:Fa; cbn [length].
    + split; [discriminate|]. intros H.
      specialize (H a (or_introl eq_refl)). congruence.
    + rewrite IH. split.
      * intros H x [<- | Hx]; [exact Fa | now apply H].
      * intros H x Hx. apply H. now right.
Qed.

Lemma fold_max_ge (xs : list Q) (m : Q) :
  m <= fold_left (fun m y => if Qlt_le_dec m y then y else m) xs m /\
  forall y, In y xs ->
    y <= fold_left (fun m y => if Qlt_le_dec m y then y else m) xs m.
Proof.
  revert m; induction xs as [|x xs IH]; intros m; cbn [fold_left].
  - split; [apply Qle_refl | intros y []].
  - destruct (IH (if Qlt_le_dec m x then x else m)) as [Hm Hall].
    destruct (Qlt_le_dec m x) as [Hlt | Hle]; split.
    + apply Qle_trans with x; [now apply Qlt_le_weak | exact Hm].
    + intros y [<- | Hy]; [exact Hm | now apply Hall].
    + exact Hm.
    + intros y [<- | Hy]; [now apply Qle_trans with m | now apply Hall].
Qed.

Lemma fold_min_le (xs : list Q) (m : Q) :
  fold_left (fun m y => if Qlt_le_dec y m then y else m) xs m <= m /\
  forall y, In y xs ->
    fold_left (fun m y => if Qlt_le_dec y m then y else m) xs m <= y.
Proof.
  revert m; induction xs as [|x xs IH]; intros m; cbn [fold_left].
  - split; [apply Qle_refl | intros y []].
  - destruct (IH (if Qlt_le_dec x m then x else m)) as [Hm Hall].
    destruct (Qlt_le_dec x m) as [Hlt | Hle]; split.
    + apply Qle_trans with x; [exact Hm | now apply Qlt_le_weak].
    + intros y [<- | Hy]; [exact Hm | now apply Hall].
    + exact Hm.
    + intros y [<- | Hy]; [now apply Qle_trans with m | now apply Hall].
Qed.

(** [max] and [min] return an element of the list. *)
Lemma fold_max_in (xs : list Q) (m : Q) :
  In (fold_left (fun m y => if Qlt_le_dec m y then y else m) xs m) (m :: xs).
Proof.
  revert m; induction xs as [|x xs IH]; intros m; cbn [fold_left].
  - now left.
  - destruct (IH (if Qlt_le_dec m x then x else m)) as [H | H].
    + rewrite <- H. destruct (Qlt_le_dec m x); [right; now left | now left].
    + right. now right.
Qed.

Lemma fold_min_in (xs : list Q) (m : Q) :
  In (fold_left (fun m y => if Qlt_le_dec y m then y else m) xs m) (m :: xs).
Proof.
  revert m; induction xs as [|x xs IH]; intros m; cbn [fold_left].
  - now left.
  - destruct (IH (if Qlt_le_dec x m then x else m)) as [H | H].
    + rewrite <- H. destruct (Qlt_le_dec x m); [right; now left | now left].
    + right. now right.
Qed.

Lemma with_stats_keeps (R : Results) :
  total_tests (with_stats average R) = total_tests R
  /\ passed_tests (with_stats average R) = passed_tests R
  /\ failed_tests (with_stats average R) = failed_tests R
  /\ errors (with_stats average R) = errors R
  /\ response_times (with_stats average R) = response_times R
  /\ test_details (with_stats average R) = test_details R.
Proof.
  unfold with_stats.
  destruct (response_times R) eqn:E; cbn; rewrite ?E; now repeat split.
Qed.

Lemma asked_case (cases : list CopilotFixes.TestCase) :
  forall i cr, In cr (results_of i cases) -> In (fst cr) cases.
Proof.
  induction cases as [|c cases IH]; intros i cr; cbn [asked].
  - intros [].
  - intros [<- | H]; [now left | right; now apply (IH (S i))].
Qed.

Lemma asked_length (cases : list CopilotFixes.TestCase) :
  forall i, length (results_of i cases) = length cases.
Proof.
  induction cases as [|c cases IH]; intros i; cbn [asked length];
    [reflexivity | now rewrite IH].
Qed.

(** When the harness raises on a result. *)
Lemma judge_textual (c : CopilotFixes.TestCase) (r : Result) :
  textual r = true -> exists v, judge c r = inr v.
Proof.
  unfold textual, ComprehensiveTest.judge.
  destruct (get (lit "error") (entries r)); [eexists; reflexivity|].
  destruct (get (lit "message") (entries r)) as [[]|];
    try discriminate; intros _; eexists; reflexivity.
Qed.

Lemma judge_not_textual (c : CopilotFixes.TestCase) (r : Result) :
  textual r = false ->
  CopilotFixes.expected_contains c ++ CopilotFixes.should_not_contain c
  <> [] ->
  judge c r = inl AttributeError.
Proof.
  unfold textual, ComprehensiveTest.judge.
  destruct (get (lit "error") (entries r)); [discriminate|].
  destruct (get (lit "message") (entries r)) as [[]|];
    try discriminate; intros _ H;
    destruct (CopilotFixes.expected_contains c
              ++ CopilotFixes.should_not_contain c); congruence.
Qed.

Lemma is_in_raises (needle : str) (v : Json) (e : exn) :
  is_in needle v = inl e -> e = TypeError.
Proof. destruct v; cbn; congruence. Qed.

Lemma check_currency_raises (m : Json) (v : CopilotFixes.verdict) (e : exn) :
  check_currency m v = inl e -> e = TypeError.
Proof.
  unfold check_currency.
  destruct (is_in CopilotFixes.pound m) as [e1|[|]] eqn:E1;
    [intros [= <-]; exact (is_in_raises _ _ _ E1) | | discriminate].
  destruct (is_in CopilotFixes.garbled_pound m) as [e2|[|]] eqn:E2;
    [intros [= <-]; exact (is_in_raises _ _ _ E2) | discriminate |].
  destruct (is_in [] m) as [e3|[|]] eqn:E3;
    [intros [= <-]; exact (is_in_raises _ _ _ E3) | discriminate
    | discriminate].
Qed.

Lemma judge_raises (c : CopilotFixes.TestCase) (r : Result) (e : exn) :
  judge c r = inl e ->
  textual r = false
  /\ (e = AttributeError
      \/ e = TypeError
         /\ CopilotFixes.expected_contains c
            ++ CopilotFixes.should_not_contain c = []).
Proof.
  unfold textual, ComprehensiveTest.judge.
  destruct (get (lit "error") (entries r)); [discriminate|].
  destruct (get (lit "message") (entries r)) as [[]|];
    try discriminate;
    (destruct (CopilotFixes.expected_contains c
               ++ CopilotFixes.should_not_contain c);
     [|intros [= <-]; split; [reflexivity | now left]]);
    match goal with
    | |- context [check_currency ?m ?v] =>
        destruct (check_currency m v) as [e'|v'] eqn:E; [|discriminate];
        intros [= <-]; split; [reflexivity|]; right; split; trivial;
        exact (check_currency_raises _ _ _ E)
    end.
Qed.

(** The loop, turn by turn. *)
Lemma loop_returns (cases : list CopilotFixes.TestCase) :
  forall i acc R, loop i cases acc = inr R ->
  total_tests R = total_tests acc
  /\ passed_tests R
     = (passed_tests acc + length (filter passing (results_of i cases)))%nat
  /\ failed_tests R
     = (failed_tests acc
        + length (filter (fun cr => negb (passing cr))
                    (results_of i cases)))%nat
  /\ errors R = errors acc
  /\ response_times R
     = response_times acc
       ++ map (fun cr => response_time (snd cr))
              (filter without_error (results_of i cases))
  /\ map passed (test_details R)
     = map passed (test_details acc) ++ map passing (results_of i cases)
  /\ map test_name (test_details R)
     = map test_name (test_details acc) ++ map CopilotFixes.name cases
  /\ stats R = stats acc
  /\ forall cr, In cr (results_of i cases) -> raising cr = false.
Proof.
  induction cases as [|c cases IH]; intros i acc R.
  - cbn. intros [= <-]. rewrite !Nat.add_0_r, !app_nil_r.
    repeat split; trivial. intros cr [].
  - cbn [run_loop asked].
    set (r := test_chat_endpoint assignment_error post i
                (CopilotFixes.message c)).
    destruct (judge c r) as [e|v] eqn:J; [discriminate|].
    intros H. apply IH in H.
    destruct H as (H1 & H2 & H3 & H4 & H5 & H6 & H7 & H8 & H9).
    rewrite H1, H2, H3, H4, H5, H6, H7, H8. clear H1 H2 H3 H4 H5 H6 H7 H8.
    assert (Hp : passing (c, r) = fst v).
    { unfold passes. cbn [fst snd]. rewrite J. now destruct v as [[|] ?]. }
    assert (Hr : raising (c, r) = false).
    { unfold raises. cbn [fst snd]. now rewrite J. }
    assert (Hw : without_error (c, r)
                 = match get (lit "error") (entries r) with
                   | Some _ => false
                   | None => true
                   end) by reflexivity.
    cbn [filter map]. rewrite Hp, Hw. clear Hp Hw. unfold record.
    cbn [total_tests passed_tests failed_tests errors response_times
         test_details stats].
    rewrite !map_app. cbn [map passed test_name snd].
    assert (Hall : forall cr, In cr ((c, r) :: results_of (S i) cases) ->
                     raising cr = false)
      by (intros cr [<- | Hcr]; [exact Hr | now apply H9]).
    destruct (get (lit "error") (entries r)); destruct (fst v);
      cbn [negb length map]; rewrite <- ?app_assoc;
      repeat split; trivial; cbn [app]; lia.
Qed.

Lemma loop_total (cases : list CopilotFixes.TestCase) :
  forall i acc,
    (forall cr, In cr (results_of i cases) -> raising cr = false) ->
    exists R, loop i cases acc = inr R.
Proof.
  induction cases as [|c cases IH]; intros i acc Hall.
  - now exists acc.
  - cbn [run_loop]. cbn [asked] in Hall.
    set (r := test_chat_endpoint assignment_error post i
                (CopilotFixes.message c)) in *.
    pose proof (Hall (c, r) (or_introl eq_refl)) as Hr.
    unfold raises in Hr. cbn [fst snd] in Hr.
    destruct (judge c r) as [e|v]; [discriminate|].
    apply IH. intros cr Hcr. apply Hall. now right.
Qed.

Lemma loop_raises (cases : list CopilotFixes.TestCase) :
  forall i acc e, loop i cases acc = inl e ->
    exists cr, In cr (results_of i cases) /\ judge (fst cr) (snd cr) = inl e.
Proof.
  induction cases as [|c cases IH]; intros i acc e.
  - discriminate.
  - cbn [run_loop asked].
    set (r := test_chat_endpoint assignment_error post i
                (CopilotFixes.message c)).
    destruct (judge c r) as [e'|v] eqn:J.
    + intros [= <-]. exists (c, r). split; [now left | exact J].
    + intros H. apply IH in H. destruct H as (cr & Hcr & Hj).
      exists cr. split; [now right | exact Hj].
Qed.

Lemma run_returns (cases : list CopilotFixes.TestCase) (R : Results) :
  run cases = inr R <->
  cases <> [] /\
  exists R0, loop 0%nat cases (start cases) = inr R0
             /\ R = with_stats average R0.
Proof.
  unfold run_tests.
  destruct (loop 0%nat cases (start cases)) as [e|R0].
  - split; [discriminate | intros (_ & R0 & H & _); discriminate].
  - destruct cases as [|c cases].
    + split; [discriminate | intros [H _]; now contradiction H].
    + split.
      * intros [= <-]. split; [discriminate | now exists R0].
      * intros (_ & R1 & [= <-] & ->). reflexivity.
Qed.

Lemma run_raises (cases : list CopilotFixes.TestCase) (e : exn) :
  loop 0%nat cases (start cases) = inl e -> run cases = inl e.
Proof. unfold run_tests. now intros ->. Qed.

Lemma test_cases_expect (c : CopilotFixes.TestCase) :
  In c AICopilotTester.test_cases ->
  CopilotFixes.expected_contains c ++ CopilotFixes.should_not_contain c
  <> [].
Proof.
  unfold AICopilotTester.test_cases. cbn [In].
  intros H E. apply app_eq_nil in E. destruct E as [E _].
  repeat (destruct H as [<- | H]; [discriminate E|]). exact H.
Qed.

(** X13.  The totals of a run.  A run over a list of test cases returns
    exactly when the list is not empty and the harness raises on no
    result; over no case at all the success rate divides by zero.  When
    the run returns, every case is counted once, as passed or as failed,
    so the two counts add up to [total_tests], the number of cases;
    [test_details] has one entry per case, in order, with the verdict of
    that case; [response_times] has the time of each result without
    ["error"] entry, in order, and of no other; [errors] stays empty.  The
    harness raises on no result that has an ["error"] entry or whose
    message is absent or a string; on any other result it raises
    [AttributeError] as soon as the test case expects or forbids some
    content. *)
Theorem run_totals (cases : list CopilotFixes.TestCase) :
  ((exists R, run cases = inr R) <->
   cases <> [] /\
   forall cr, In cr (results_of 0%nat cases) -> raising cr = false)
  /\ (cases = [] -> run cases = inl ZeroDivisionError)
  /\ (forall R, run cases = inr R ->
        total_tests R = length cases
        /\ (passed_tests R + failed_tests R = total_tests R)%nat
        /\ passed_tests R
           = length (filter passing (results_of 0%nat cases))
        /\ map test_name (test_details R) = map CopilotFixes.name cases
        /\ map passed (test_details R)
           = map passing (results_of 0%nat cases)
        /\ response_times R
           = map (fun cr => response_time (snd cr))
                 (filter without_error (results_of 0%nat cases))
        /\ errors R = [])
  /\ (forall c r, textual r = true -> raising (c, r) = false)
  /\ (forall c r,
        textual r = false ->
        CopilotFixes.expected_contains c
        ++ CopilotFixes.should_not_contain c <> [] ->
        judge c r = inl AttributeError).
Proof.
  split; [|split; [|split; [|split]]].
  - split.
    + intros [R HR]. apply run_returns in HR.
      destruct HR as (Hne & R0 & HR0 & _). split; [exact Hne|].
      now destruct (loop_returns _ _ _ _ HR0) as (_ & _ & _ & _ & _ & _ & _
                                                  & _ & H).
    + intros [Hne Hall].
      destruct (loop_total cases 0%nat (start cases) Hall) as [R0 HR0].
      exists (with_stats average R0). apply run_returns.
      split; [exact Hne | now exists R0].
  - intros ->. reflexivity.
  - intros R HR. apply run_returns in HR.
    destruct HR as (_ & R0 & HR0 & ->).
    destruct (with_stats_keeps R0) as (K1 & K2 & K3 & K4 & K5 & K6).
    rewrite K1, K2, K3, K4, K5, K6. clear K1 K2 K3 K4 K5 K6.
    destruct (loop_returns _ _ _ _ HR0)
      as (H1 & H2 & H3 & H4 & H5 & H6 & H7 & _ & _).
    rewrite H1, H2, H3, H4, H5, H6, H7.
    cbn [total_tests passed_tests failed_tests errors response_times
         test_details map app].
    repeat split; trivial.
    rewrite !Nat.add_0_l, <- (asked_length cases 0). apply filter_length.
  - intros c r Ht. unfold raises. cbn [fst snd].
    now destruct (judge_textual c r Ht) as [v ->].
  - exact judge_not_textual.
Qed.

Lemma textual_results_run :
  (forall cr, In cr (results_of 0%nat AICopilotTester.test_cases) ->
     textual (snd cr) = true) ->
  exists R0,
    loop 0%nat AICopilotTester.test_cases
      (start AICopilotTester.test_cases) = inr R0.
Proof.
  intros Hall. apply loop_total. intros [c r] Hcr.
  specialize (Hall _ Hcr). cbn [snd] in Hall. unfold raises. cbn [fst snd].
  now destruct (judge_textual c r Hall) as [v ->].
Qed.

Lemma other_results_raise :
  (exists cr, In cr (results_of 0%nat AICopilotTester.test_cases)
              /\ textual (snd cr) = false) ->
  loop 0%nat AICopilotTester.test_cases (start AICopilotTester.test_cases)
  = inl AttributeError.
Proof.
  intros ([c r] & Hcr & Ht). cbn [snd] in Ht.
  pose proof (judge_not_textual c r Ht
                (test_cases_expect c (asked_case _ _ _ Hcr))) as Hj.
  destruct (loop 0%nat AICopilotTester.test_cases
              (start AICopilotTester.test_cases)) as [e|R0] eqn:HL.
  - apply loop_raises in HL. destruct HL as ([c' r'] & Hcr' & Hj').
    cbn [fst snd] in Hj'. apply judge_raises in Hj'.
    destruct Hj' as [_ [-> | [_ Hnil]]]; [reflexivity|].
    now destruct (test_cases_expect c' (asked_case _ _ _ Hcr')).
  - destruct (loop_returns _ _ _ _ HL) as (_ & _ & _ & _ & _ & _ & _ & _ & H).
    specialize (H _ Hcr). unfold raises in H. cbn [fst snd] in H.
    rewrite Hj in H. discriminate.
Qed.

(** X14.  The exit code.  [main] returns exactly when the log file opens
    and every result has an ["error"] entry or a message that is absent or
    a string.  It then returns 0 when every test case of the harness
    passes and 1 otherwise.  When some result is of another kind, the run
    raises [AttributeError] and [main] returns nothing; when all results
    are of that kind and the log file does not open, [main] raises from
    [open]. *)
Theorem main_exit_code :
  let results := results_of 0%nat AICopilotTester.test_cases in
  let main :=
    ComprehensiveTest.main lower format_2f format_value assignment_error
      average post log_opens in
  ((exists code, main = inr code) <->
   log_opens = true /\ forall cr, In cr results -> textual (snd cr) = true)
  /\ (forall code, main = inr code ->
        (code = 0%Z \/ code = 1%Z)
        /\ (code = 0%Z <-> forall cr, In cr results -> passing cr = true))
  /\ ((exists cr, In cr results /\ textual (snd cr) = false) ->
      main = inl AttributeError)
  /\ (log_opens = false ->
      (forall cr, In cr results -> textual (snd cr) = true) ->
      main = inl OSError).
Proof.
  cbv zeta. unfold main, run_comprehensive_test.
  assert (Hne : AICopilotTester.test_cases <> []) by discriminate.
  split; [|split; [|split]].
  - split.
    + intros [code Hcode].
      destruct (run AICopilotTester.test_cases) as [e|R] eqn:HR;
        [discriminate|].
      destruct log_opens; [|discriminate]. split; [reflexivity|].
      intros [c r] Hcr. cbn [snd].
      destruct (textual r) eqn:Ht; [reflexivity|]. exfalso.
      rewrite (run_raises _ _ (other_results_raise
                 (ex_intro _ (c, r) (conj Hcr Ht)))) in HR.
      discriminate.
    + intros [-> Hall].
      destruct (textual_results_run Hall) as [R0 HR0].
      rewrite (proj2 (run_returns _ (with_stats average R0))
                 (conj Hne (ex_intro _ R0 (conj HR0 eq_refl)))).
      eexists; reflexivity.
  - intros code.
    destruct (run AICopilotTester.test_cases) as [e|R] eqn:HR;
      [discriminate|].
    destruct log_opens; [|discriminate]. intros [= <-].
    apply run_returns in HR. destruct HR as (_ & R0 & HR0 & ->).
    destruct (with_stats_keeps R0) as (_ & _ & K3 & _). rewrite K3.
    destruct (loop_returns _ _ _ _ HR0) as (_ & _ & H3 & _).
    rewrite H3. cbn [failed_tests]. rewrite Nat.add_0_l.
    split; [destruct (0 <? _)%nat; [now right | now left]|].
    destruct (Nat.ltb_spec 0
                (length (filter (fun cr => negb (passing cr))
                           (results_of 0%nat AICopilotTester.test_cases))))
      as [Hpos | Hzero].
    + split; [discriminate|]. intros Hall. exfalso.
      assert (Hnone : length (filter (fun cr => negb (passing cr))
                (results_of 0%nat AICopilotTester.test_cases)) = 0%nat).
      { apply filter_none. intros cr Hcr. now rewrite (Hall cr Hcr). }
      lia.
    + split; [|reflexivity]. intros _ cr Hcr.
      assert (Hnone : length (filter (fun cr => negb (passing cr))
                (results_of 0%nat AICopilotTester.test_cases)) = 0%nat)
        by lia.
      apply negb_false_iff.
      exact (proj1 (filter_none _ _) Hnone cr Hcr).
  - intros Hex. now rewrite (run_raises _ _ (other_results_raise Hex)).
  - intros -> Hall. destruct (textual_results_run Hall) as [R0 HR0].
    now rewrite (proj2 (run_returns _ (with_stats average R0))
                   (conj Hne (ex_intro _ R0 (conj HR0 eq_refl)))).
Qed.

(** X15.  The statistics.  When the run returns, they are added exactly
    when some result has no ["error"] entry.  Then the greatest and the
    least response time are recorded times and bound every recorded time,
    and the average is what [sum] and [len] give on the recorded times. *)
Theorem run_statistics (cases : list CopilotFixes.TestCase) (R : Results) :
  run cases = inr R ->
  (stats R = None <->
   forall cr, In cr (results_of 0%nat cases) -> without_error cr = false)
  /\ (forall s, stats R = Some s ->
        avg_response_time s = average (response_times R)
        /\ In (max_response_time s) (response_times R)
        /\ In (min_response_time s) (response_times R)
        /\ forall t, In t (response_times R) ->
             min_response_time s <= t /\ t <= max_response_time s).
Proof.
  intros HR. apply run_returns in HR. destruct HR as (_ & R0 & HR0 & ->).
  destruct (loop_returns _ _ _ _ HR0)
    as (_ & _ & _ & _ & Htimes & _ & _ & Hnone & _).
  cbn [response_times stats app] in Htimes, Hnone.
  destruct (with_stats_keeps R0) as (_ & _ & _ & _ & K5 & _).
  rewrite K5. clear K5. unfold with_stats.
  destruct (response_times R0) as [|t ts] eqn:E.
  - rewrite Hnone. split; [|discriminate].
    split; [|reflexivity]. intros _ cr Hcr.
    destruct (without_error cr) eqn:Ea; [|reflexivity].
    assert (Hin : In cr (filter without_error (results_of 0%nat cases)))
      by (apply filter_In; now split).
    symmetry in Htimes. apply map_eq_nil in Htimes.
    rewrite Htimes in Hin. contradiction.
  - cbn [stats]. split.
    + split; [discriminate|]. intros Hall. exfalso.
      rewrite (filter_all_false _ _ Hall) in Htimes. discriminate.
    + intros s [= <-].
      cbn [avg_response_time max_response_time min_response_time].
      destruct (fold_max_ge ts t) as [Hmax0 Hmax].
      destruct (fold_min_le ts t) as [Hmin0 Hmin].
      split; [reflexivity|].
      split; [apply fold_max_in|]. split; [apply fold_min_in|].
      intros y [<- | Hy]; split; trivial; [now apply Hmin | now apply Hmax].
Qed.

End RunTotals.

Lemma run_totals_witness :
  ComprehensiveTest.total_tests Examples.advising_results = 5%nat
  /\ (ComprehensiveTest.passed_tests Examples.advising_results
      + ComprehensiveTest.failed_tests Examples.advising_results = 5)%nat.
Proof.
  destruct (proj1 (proj2 (proj2
              (run_totals Examples.ascii_lower Examples.two_decimals
                 Examples.shown Examples.shown Examples.exact_average
                 Examples.advising AICopilotTester.test_cases)))
              Examples.advising_results) as (H1 & H2 & _).
  - vm_compute. reflexivity.
  - split; [exact H1 | now rewrite H2, H1].
Defined.

Lemma main_exit_code_witness :
  ComprehensiveTest.main Examples.ascii_lower Examples.two_decimals
    Examples.shown Examples.shown Examples.exact_average Examples.listing
    true
  = inl ComprehensiveTest.AttributeError.
Proof.
  apply (proj1 (proj2 (proj2
           (main_exit_code Examples.ascii_lower Examples.two_decimals
              Examples.shown Examples.shown Examples.exact_average
              Examples.listing true)))).
  eexists. split; [left; reflexivity | vm_compute; reflexivity].
Defined.

Lemma run_statistics_witness :
  In (ComprehensiveTest.max_response_time Examples.advising_stats)
     (ComprehensiveTest.response_times Examples.advising_results).
Proof.
  destruct (proj2 (run_statistics Examples.ascii_lower Examples.two_decimals
                     Examples.shown Examples.shown Examples.exact_average
                     Examples.advising AICopilotTester.test_cases
                     Examples.advising_results
                     ltac:(vm_compute; reflexivity))
              Examples.advising_stats) as (_ & H & _).
  - vm_compute. reflexivity.
  - exact H.
Defined.

(** The exit code of the harness when the server gives the same advice to
    every question: the first test case misses its expected content. *)
Example main_on_advice :
  ComprehensiveTest.main Examples.ascii_lower Examples.two_decimals
    Examples.shown Examples.shown Examples.exact_average Examples.advising
    true = inr 1%Z.
Proof. vm_compute. reflexivity. Qed.

(** With no directory [logs], the same run ends in [open]. *)
Example main_without_logs :
  ComprehensiveTest.main Examples.ascii_lower Examples.two_decimals
    Examples.shown Examples.shown Examples.exact_average Examples.advising
    false = inl ComprehensiveTest.OSError.
Proof. vm_compute. reflexivity. Qed.

(** ** The question run *)

Section QuestionRun.

Import CopilotRunLoop.

Variable json : Type.
Variable is_dict : json -> bool.
Variable get_success : json -> bool.
Variable uuid_hex : Z -> str.
Variable post : Payload -> Exchange json.

Local Notation "'ask'" :=
  (CopilotRunLoop.ask json is_dict get_success uuid_hex post).
Local Notation "'run'" :=
  (CopilotRunLoop.run json is_dict get_success uuid_hex post).

Lemma ask_record (idx : Z) (question : str * str) :
  index (fst (ask idx question)) = idx
  /\ category (fst (ask idx question)) = fst question
  /\ prompt (fst (ask idx question)) = snd question
  /\ payload (fst (ask idx question))
     = {| message := snd question;
          teamId := TEAM_ID;
          sessionId := lit "autotest_" ++ uuid_hex idx |}
  /\ has_error (fst (ask idx question)) = negb (snd (ask idx question)).
Proof.
  destruct question as [c p]. unfold CopilotRunLoop.ask, has_error.
  destruct (post _) as [why | status latency [data | | why]];
    try (cbn; now repeat split).
  destruct (response_ok status && is_dict data && get_success data);
    cbn; now repeat split.
Qed.

Lemma enumerate_snd {A : Type} (xs : list A) (start : Z) :
  map snd (CopilotRun.enumerate xs start) = xs.
Proof.
  revert start; induction xs as [|x xs IH]; intros start; cbn;
    [reflexivity | now rewrite IH].
Qed.

Lemma enumerate_fst {A : Type} (xs : list A) (start : Z) :
  map fst (CopilotRun.enumerate xs start)
  = map (fun k => (start + Z.of_nat k)%Z) (seq 0 (length xs)).
Proof.
  revert start; induction xs as [|x xs IH]; intros start; [reflexivity|].
  cbn [CopilotRun.enumerate map length seq fst].
  rewrite IH, <- seq_shift, map_map. f_equal; [f_equal; lia|].
  apply map_ext. intros k. lia.
Qed.

Lemma fold_ask (pairs : list (Z * (str * str)))
    (summary : Summary) (results : list (Entry json)) :
  let asked := map (fun iq => ask (fst iq) (snd iq)) pairs in
  fold_left
    (fun '(summary, results) '(idx, question) =>
       let (record, succeeded) := ask idx question in
       (count summary succeeded, results ++ [record]))
    pairs (summary, results)
  = ({| total := total summary;
        success := success summary + length (filter snd asked);
        fail := fail summary
                + length (filter (fun a => negb (snd a)) asked) |},
     results ++ map fst asked).
Proof.
  cbv zeta. revert summary results.
  induction pairs as [|[idx q] pairs IH]; intros summary results.
  - cbn. rewrite !Nat.add_0_r, app_nil_r. now destruct summary.
  - cbn [fold_left map fst snd filter]. 
    destruct (ask idx q) as [record ok] eqn:E.
    rewrite IH. cbn [snd fst]. unfold count. cbn [total success fail].
    rewrite <- app_assoc. cbn [app].
    destruct ok; cbn [negb length]; f_equal; f_equal; lia.
Qed.

Lemma asked_errors (pairs : list (Z * (str * str))) :
  let asked := map (fun iq => ask (fst iq) (snd iq)) pairs in
  length (filter (fun a => negb (snd a)) asked)
  = length (filter has_error (map fst asked))
  /\ length (filter snd asked)
     = length (filter (fun e => negb (has_error e)) (map fst asked)).
Proof.
  cbv zeta. induction pairs as [|[idx q] pairs [IH1 IH2]];
    [now split|].
  cbn [map filter fst snd].
  destruct (ask_record idx q) as (_ & _ & _ & _ & He). rewrite He.
  destruct (snd (ask idx q)); cbn [negb length]; split; congruence.
Qed.

(** X16.  The summary of a question run.  Over any list of questions, the
    run makes one record per question; [total] is the number of questions;
    every request is counted once, as success or as fail, so the two counts
    add up to [total]; and the records with an ["error"] entry are exactly
    as many as the requests counted as fail. *)
Theorem run_summary (questions : list (str * str)) :
  let summary := fst (run questions) in
  let results := snd (run questions) in
  total summary = length questions
  /\ length results = length questions
  /\ (success summary + fail summary = total summary)%nat
  /\ fail summary = length (filter has_error results)
  /\ success summary
     = length (filter (fun e => negb (has_error e)) results).
Proof.
  cbv zeta. unfold CopilotRunLoop.run. rewrite fold_ask.
  cbn [fst snd total success fail app]. rewrite !Nat.add_0_l.
  set (pairs := CopilotRun.enumerate questions 1).
  assert (Hlen : length pairs = length questions)
    by (subst pairs; rewrite <- (enumerate_snd questions 1) at 2;
        now rewrite length_map).
  destruct (asked_errors pairs) as [Hfail Hsucc]. cbv zeta in Hfail, Hsucc.
  rewrite <- Hfail, <- Hsucc. rewrite !length_map.
  repeat split; trivial.
  rewrite filter_length, length_map. exact Hlen.
Qed.

(** X17.  The records follow the questions.  The records carry the
    categories and prompts of the questions, in order; their indices count
    from 1; and each payload sends the prompt as message, the fixed team,
    and a session named after the identifier drawn for that request. *)
Theorem records_follow_questions (questions : list (str * str)) :
  let results := snd (run questions) in
  map (fun e => (category e, prompt e)) results = questions
  /\ map index results
     = map (fun k => (1 + Z.of_nat k)%Z) (seq 0 (length questions))
  /\ (forall e, In e results ->
        payload e = {| message := prompt e;
                       teamId := TEAM_ID;
                       sessionId := lit "autotest_" ++ uuid_hex (index e) |}).
Proof.
  cbv zeta. unfold CopilotRunLoop.run. rewrite fold_ask.
  cbn [snd app]. rewrite !map_map. split; [|split].
  - rewrite <- (enumerate_snd questions 1) at 2. rewrite <- map_map with
      (f := snd) (g := fun q : str * str => q) at 1.
    rewrite map_id. apply map_ext. intros [idx q]. cbn [fst snd].
    destruct (ask_record idx q) as (_ & Hc & Hp & _).
    rewrite Hc, Hp. now destruct q.
  - rewrite <- enumerate_fst. apply map_ext. intros [idx q]. cbn [fst snd].
    now destruct (ask_record idx q) as (Hi & _).
  - intros e He. apply in_map_iff in He. destruct He as ([idx q] & <- & _).
    cbn [fst snd]. destruct (ask_record idx q) as (Hi & _ & Hp & Hpay & _).
    now rewrite Hi, Hp, Hpay.
Qed.



End QuestionRun.

(** ** The patch, passage by passage *)




(** ** Instances *)

Lemma bench_and_starters_split_witness :
  In Examples.bench_keeper
     (AnalysisEngine.benchPlayers [Examples.bench_keeper]) \/
  In Examples.bench_keeper
     (AnalysisEngine.starterPlayers [Examples.bench_keeper]).
Proof.
  apply (proj1 (bench_and_starters_split [Examples.bench_keeper])).
  now left.
Defined.

Lemma max_sell_value_infinite_iff_empty_witness :
  AnalysisEngine.maxSellValue [] = AnalysisEngine.NegInfinity.
Proof.
  apply (proj2 (max_sell_value_infinite_iff_empty [])). reflexivity.
Defined.

Lemma test_passes_iff_witness :
  fst (CopilotFixes.judge Examples.ascii_lower Examples.two_decimals
         Examples.price_test Examples.helpful_answer) = true.
Proof.
  apply (proj2 (test_passes_iff Examples.ascii_lower Examples.two_decimals
                  Examples.price_test Examples.helpful_answer)).
  split; [reflexivity|]. split; [|split].
  - intros e [<- | []]. vm_compute. reflexivity.
  - intros f [<- | []]. vm_compute. reflexivity.
  - vm_compute. reflexivity.
Defined.

Lemma records_follow_questions_witness :
  CopilotRunLoop.payload
    (fst (CopilotRunLoop.ask bool (fun _ => true) (fun b => b)
            Examples.zero_hex Examples.refusing 1
            (lit "chip_strategy",
             lit "Is Gameweek 8 a good time for my wildcard?")))
  = {| CopilotRunLoop.message :=
         lit "Is Gameweek 8 a good time for my wildcard?";
       CopilotRunLoop.teamId := CopilotRunLoop.TEAM_ID;
       CopilotRunLoop.sessionId := lit "autotest_" ++ Examples.zero_hex 1 |}.
Proof.
  apply (proj2 (proj2 (records_follow_questions bool (fun _ => true)
                         (fun b => b) Examples.zero_hex Examples.refusing
                         Examples.two_questions))
           (fst (CopilotRunLoop.ask bool (fun _ => true) (fun b => b)
                   Examples.zero_hex Examples.refusing 1
                   (lit "chip_strategy",
                    lit "Is Gameweek 8 a good time for my wildcard?")))).
  left. reflexivity.
Defined.

(** ** The patch script on the disk *)





Section PatchOnDisk.

Variable byte : Type.
Variable decode : list byte -> option str.
Variable encode : str -> list byte.
Variable linesep : str.




End PatchOnDisk.


